(** * osmosis-discover-js: [listInterfaces.cpp]

    A shallow embedding of the native addon function [ListInterfaces]
    (src/osmosis-discover-js/src/listInterfaces.cpp) together with the
    properties of it that the specification states.

    The function asks the operating system for the interface address list
    ([getifaddrs]), walks the linked list, and for every entry whose address
    family is [AF_INET] stores a JavaScript object with the keys [name],
    [address] and [broadcast] into the result array.  *)

From Stdlib Require Import ZArith NArith String Ascii DecimalString Lia.
From Stdlib.Strings Require Import Byte.
From stdpp Require Import base option list gmap strings.

Local Open Scope Z_scope.

(** ** Outcomes of running C++ code

    [Fault] stands for undefined behaviour of the C++ program: a read through
    a null or stray pointer, a read of an uninitialised buffer, an overflow
    of a signed [int].  [Ret] is a normal return. *)

Inductive result (A : Type) : Type :=
  | Fault : result A
  | Ret : A → result A.
Arguments Fault {A}.
Arguments Ret {A} _.

#[global] Instance result_ret : MRet result := @Ret.
#[global] Instance result_bind : MBind result :=
  λ A B f m, match m with Fault => Fault | Ret a => f a end.

(** Reading through a pointer that may be null. *)
Definition deref {A : Type} (p : option A) : result A :=
  match p with
  | Some a => Ret a
  | None => Fault
  end.

(** ** Constants of the C library headers *)

(** [<sys/socket.h>]: the IPv4 address family. *)
Definition AF_INET : Z := 2.
(** [<netinet/in.h>]: room for ["255.255.255.255"] and the final NUL. *)
Definition INET_ADDRSTRLEN : nat := 16.
(** [<limits.h>]: the largest [int]. *)
Definition INT_MAX : Z := 2147483647.

(** ** Socket addresses

    [struct in_addr] is four bytes holding the address in network byte
    order; the fields are the bytes in memory order, which is the order
    [inet_ntop] reads them in. *)

Record in_addr : Type := mk_in_addr {
  s_b0 : byte;
  s_b1 : byte;
  s_b2 : byte;
  s_b3 : byte
}.

(** The 32-bit value of an address, most significant octet first. *)
Definition s_addr (a : in_addr) : Z :=
  Z.lor (Z.shiftl (Z.of_N (Byte.to_N (s_b0 a))) 24)
    (Z.lor (Z.shiftl (Z.of_N (Byte.to_N (s_b1 a))) 16)
       (Z.lor (Z.shiftl (Z.of_N (Byte.to_N (s_b2 a))) 8)
          (Z.of_N (Byte.to_N (s_b3 a))))).

(** A [struct sockaddr] as the function reads it: [sa_family] at offset 0
    and, through the cast to [struct sockaddr_in*], [sin_addr] at offset 4.
    For a socket address of another family [sin_addr] is whatever bytes that
    family keeps at offset 4. *)
Record sockaddr : Type := mk_sockaddr {
  sa_family : Z;
  sin_port : Z;
  sin_addr : in_addr
}.

(** One node of the list [getifaddrs] returns ([<ifaddrs.h>]).  [ifa_next] is
    the tail of the Rocq list the node sits in; a pointer field is [None]
    when it is null.  [ifa_broadaddr] and [ifa_dstaddr] are two names of the
    one slot [ifa_ifu]. *)
Record ifaddrs : Type := mk_ifaddrs {
  ifa_name : string;
  ifa_flags : Z;
  ifa_addr : option sockaddr;
  ifa_netmask : option sockaddr;
  ifa_ifu : option sockaddr
}.

Definition ifa_broadaddr (ifa : ifaddrs) : option sockaddr := ifa_ifu ifa.
Definition ifa_dstaddr (ifa : ifaddrs) : option sockaddr := ifa_ifu ifa.

(** The value of a [struct ifaddrs*] variable: the head of a null-terminated
    list ([Head []] is the null pointer), or a non-null value that does not
    point at a list obtained from [getifaddrs]. *)
Inductive ifaddrs_ptr : Type :=
  | Head : list ifaddrs → ifaddrs_ptr
  | Stray : ifaddrs_ptr.

(** ** inet_ntop and the reverse conversion *)

(** [printf]'s [%u]. *)
Definition print_u (n : N) : string := NilEmpty.string_of_uint (N.to_uint n).

Definition octet (b : byte) : string := print_u (Byte.to_N b).

(** Modelled from the spec: the "dotted-decimal" text of an IPv4 address,
    "four decimal octets separated by periods"; [inet_ntop] builds it as
    [%u.%u.%u.%u] of the four bytes. *)
Definition dotted (a : in_addr) : string :=
  (octet (s_b0 a) +:+ "." +:+ octet (s_b1 a) +:+ "." +:+
   octet (s_b2 a) +:+ "." +:+ octet (s_b3 a))%string.

(** Modelled from the spec: the C library's [inet_ntop] is not part of the
    repository.  The specification describes it as the conversion that,
    "given an address family tag and raw address bytes, returns
    dotted-decimal text (for IPv4) into a caller-supplied fixed-size buffer".
    [inet_ntop af src size] is the text written to the buffer, or [None] when
    the call fails and leaves the buffer as it was: the family is not
    [AF_INET] (IPv6 is of no use to [ListInterfaces]), or the text and its
    final NUL do not fit in [size] bytes. *)
Definition inet_ntop (af : Z) (src : in_addr) (size : nat) : option string :=
  if bool_decide (af = AF_INET) then
    if bool_decide (String.length (dotted src) < size)%nat
    then Some (dotted src) else None
  else None.

(** Modelled from the spec: the reverse conversion, by which a dotted-decimal
    text is "parsed back" to the address; it is not part of the repository
    either.  It works as the C library's [inet_pton] does for [AF_INET]: a
    scan of the text that keeps the octets read so far, the octet being read
    and whether that octet has a digit yet.  An octet has no leading zero
    and is at most 255; there are exactly four of them, separated by single
    dots. *)
Record pton_state : Type := mk_pton {
  pt_done : list N;
  pt_cur : N;
  pt_saw_digit : bool
}.

Definition is_digit (c : ascii) : bool :=
  (48 <=? N_of_ascii c)%N && (N_of_ascii c <=? 57)%N.

Definition pton_step (c : ascii) (st : pton_state) : option pton_state :=
  if is_digit c then
    let new := (pt_cur st * 10 + (N_of_ascii c - 48))%N in
    if pt_saw_digit st && (pt_cur st =? 0)%N then None
    else if (255 <? new)%N then None
    else if pt_saw_digit st then Some (mk_pton (pt_done st) new true)
    else if (4 <=? List.length (pt_done st))%nat then None
    else Some (mk_pton (pt_done st) new true)
  else if Ascii.eqb c "." && pt_saw_digit st then
    if (3 <=? List.length (pt_done st))%nat then None
    else Some (mk_pton (pt_done st ++ [pt_cur st]) 0%N false)
  else None.

Fixpoint pton_scan (s : string) (st : pton_state) : option pton_state :=
  match s with
  | EmptyString => Some st
  | String c s' =>
      match pton_step c st with
      | Some st' => pton_scan s' st'
      | None => None
      end
  end.

Definition pton_finish (st : pton_state) : option in_addr :=
  if pt_saw_digit st then
    match pt_done st ++ [pt_cur st] with
    | [a; b; c; d] =>
        match Byte.of_N a, Byte.of_N b, Byte.of_N c, Byte.of_N d with
        | Some a, Some b, Some c, Some d => Some (mk_in_addr a b c d)
        | _, _, _, _ => None
        end
    | _ => None
    end
  else None.

(** Modelled from the spec: the address a dotted-decimal text parses back
    to, [None] when the text is not a valid one. *)
Definition inet_pton (s : string) : option in_addr :=
  match pton_scan s (mk_pton [] 0%N false) with
  | Some st => pton_finish st
  | None => None
  end.

(** ** The JavaScript side

    An object built by the function maps property names to strings; the
    array [out] is a list of slots, a slot that was never stored to being a
    hole ([None]). *)

Abbreviation Object := (gmap string string).
Abbreviation Array := (list (option (gmap string string))).

(** What the JavaScript caller of a native function observes: the exception
    left pending when the function returns, or else the returned value. *)
Inductive js_outcome : Type :=
  | Throws : string → js_outcome
  | Returns : Array → js_outcome.

(** ** JavaScript strings from C strings

    A JavaScript string is kept as its UTF-8 encoding.  [Napi::String::New]
    on a [const char*] takes the bytes before the first NUL and decodes them
    as UTF-8; the bytes of a well-formed sequence give their character, and
    every maximal ill-formed run of bytes gives one U+FFFD. *)

(** U+FFFD in UTF-8: the bytes EF BF BD. *)
Definition replacement_character : string :=
  String "239" (String "191" (String "189" EmptyString)).

(** The C string at the start of [s]: the bytes before the first NUL. *)
Fixpoint c_str (s : string) : string :=
  match s with
  | EmptyString => EmptyString
  | String c s' =>
      if Ascii.eqb c "000" then EmptyString else String c (c_str s')
  end.

(** The decoder between two characters, or inside a multi-byte sequence:
    [Utf8Need more lo hi seen] has read the bytes [seen], expects a byte in
    [lo..hi] next and [more] continuation bytes after it. *)
Inductive utf8_state : Type :=
  | Utf8Accept : utf8_state
  | Utf8Need : nat → N → N → string → utf8_state.

(** A byte read between two characters: the text it completes and the state
    it leaves.  The ranges are those of the well-formed UTF-8 byte
    sequences: no overlong form, no surrogate, nothing above U+10FFFF. *)
Definition utf8_lead (c : ascii) : string * utf8_state :=
  let b := N_of_ascii c in
  let seen := String c EmptyString in
  if (b <=? 0x7F)%N then (seen, Utf8Accept)
  else if (0xC2 <=? b)%N && (b <=? 0xDF)%N
  then (EmptyString, Utf8Need 0 0x80 0xBF seen)
  else if (b =? 0xE0)%N then (EmptyString, Utf8Need 1 0xA0 0xBF seen)
  else if (b =? 0xED)%N then (EmptyString, Utf8Need 1 0x80 0x9F seen)
  else if (0xE1 <=? b)%N && (b <=? 0xEF)%N
  then (EmptyString, Utf8Need 1 0x80 0xBF seen)
  else if (b =? 0xF0)%N then (EmptyString, Utf8Need 2 0x90 0xBF seen)
  else if (0xF1 <=? b)%N && (b <=? 0xF3)%N
  then (EmptyString, Utf8Need 2 0x80 0xBF seen)
  else if (b =? 0xF4)%N then (EmptyString, Utf8Need 2 0x80 0x8F seen)
  else (replacement_character, Utf8Accept).

(** The decoding of the bytes [s] from the state [st].  A byte that cannot
    continue the sequence under way ends it with one U+FFFD and is read
    again as the start of a character; a sequence cut short by the end of
    the string gives one U+FFFD. *)
Fixpoint utf8_decode (s : string) (st : utf8_state) : string :=
  match s with
  | EmptyString =>
      match st with
      | Utf8Accept => EmptyString
      | Utf8Need _ _ _ _ => replacement_character
      end
  | String c s' =>
      match st with
      | Utf8Accept =>
          let '(text, st') := utf8_lead c in text +:+ utf8_decode s' st'
      | Utf8Need more lo hi seen =>
          if (lo <=? N_of_ascii c)%N && (N_of_ascii c <=? hi)%N then
            match more with
            | O => seen +:+ String c (utf8_decode s' Utf8Accept)
            | S more' =>
                utf8_decode s'
                  (Utf8Need more' 0x80 0xBF (seen +:+ String c EmptyString))
            end
          else
            let '(text, st') := utf8_lead c in
            replacement_character +:+ text +:+ utf8_decode s' st'
      end
  end.

(** [Napi::String::New(env, val)] for a [const char* val]. *)
Definition String_New (val : string) : string :=
  utf8_decode (c_str val) Utf8Accept.

(** ** The operating system

    [getifaddrs] either succeeds and stores the head of a fresh list, or
    fails.  A failing call stores nothing (musl, the BSDs) or stores a null
    pointer before it fails (glibc); [QueryFail] says which. *)
Inductive os_query : Type :=
  | QueryOk : list ifaddrs → os_query
  | QueryFail : bool → os_query.

(** [getifaddrs q ifap]: the return code and the new contents of [*ifap]. *)
Definition getifaddrs (q : os_query) (ifap : ifaddrs_ptr) : Z * ifaddrs_ptr :=
  match q with
  | QueryOk l => (0, Head l)
  | QueryFail true => (-1, Head [])
  | QueryFail false => (-1, ifap)
  end.

(** The calls the function makes to the operating system, oldest first. *)
Inductive os_call : Type :=
  | Call_getifaddrs : Z → ifaddrs_ptr → os_call
  | Call_freeifaddrs : ifaddrs_ptr → os_call.

(** ** The state of one call of [ListInterfaces] *)

Record frame : Type := mk_frame {
  last_exception : option string;
  out : list (option (gmap string string));
  index : Z;
  os_calls : list os_call
}.

Definition set_out (a : Array) (fr : frame) : frame :=
  mk_frame (last_exception fr) a (index fr) (os_calls fr).
Definition set_index (i : Z) (fr : frame) : frame :=
  mk_frame (last_exception fr) (out fr) i (os_calls fr).
Definition log_call (c : os_call) (fr : frame) : frame :=
  mk_frame (last_exception fr) (out fr) (index fr) (os_calls fr ++ [c]).

(** [Napi::Error::New(env, msg).ThrowAsJavaScriptException()]: the exception
    becomes pending in [env] and the call returns to the C++ code. *)
Definition ThrowAsJavaScriptException (msg : string) (fr : frame) : frame :=
  mk_frame (Some msg) (out fr) (index fr) (os_calls fr).

(** [obj.Set(key, value)].  A Node-API call that can run JavaScript does
    nothing while an exception is pending. *)
Definition Object_Set (pending : option string) (obj : Object)
    (key value : string) : Object :=
  match pending with
  | None => <[key := value]> obj
  | Some _ => obj
  end.

(** [out[i] = obj] on a JavaScript array: a store inside the array replaces
    the slot, a store past the end extends the array, leaving holes before
    the new slot. *)
Definition Array_set (pending : option string) (a : Array) (i : nat)
    (obj : Object) : Array :=
  match pending with
  | None =>
      if bool_decide (i < length a)%nat then <[i := Some obj]> a
      else a ++ replicate (i - length a) None ++ [Some obj]
  | Some _ => a
  end.

(** The [uint32_t] an [int] converts to when it indexes a [Napi::Array]. *)
Definition to_uint32 (i : Z) : nat := Z.to_nat (i mod 2 ^ 32).

(** [index++] on an [int]. *)
Definition int_incr (i : Z) : result Z :=
  if bool_decide (i < INT_MAX) then Ret (i + 1) else Fault.

(** [inet_ntop(af, src, buf, size)] with its return value ignored: the buffer
    afterwards.  A buffer never written to is [None]. *)
Definition inet_ntop_into (af : Z) (src : in_addr) (buf : option string)
    (size : nat) : option string :=
  match inet_ntop af src size with
  | Some s => Some s
  | None => buf
  end.

(** ** ListInterfaces *)

(** The body of the [for] loop for the node [ifa]. *)
Definition loop_body (ifa : ifaddrs) (fr : frame) : result frame :=
  sa ← deref (ifa_addr ifa);
  if bool_decide (sa_family sa ≠ AF_INET) then Ret fr
  else
    let obj : Object := ∅ in
    let obj :=
      Object_Set (last_exception fr) obj "name" (String_New (ifa_name ifa)) in
    let ip_addr_buffer : option string := None in
    let ip_addr_buffer :=
      inet_ntop_into AF_INET (sin_addr sa) ip_addr_buffer INET_ADDRSTRLEN in
    address ← deref ip_addr_buffer;
    let obj :=
      Object_Set (last_exception fr) obj "address" (String_New address) in
    sb ← deref (ifa_broadaddr ifa);
    let ip_addr_buffer :=
      inet_ntop_into AF_INET (sin_addr sb) ip_addr_buffer INET_ADDRSTRLEN in
    broadcast ← deref ip_addr_buffer;
    let obj :=
      Object_Set (last_exception fr) obj "broadcast" (String_New broadcast) in
    let fr :=
      set_out (Array_set (last_exception fr) (out fr)
                 (to_uint32 (index fr)) obj) fr in
    i ← int_incr (index fr);
    Ret (set_index i fr).

(** [for (ifa = interfaces; ifa != NULL; ifa = ifa->ifa_next)] over the list
    [interfaces] points at. *)
Fixpoint for_loop (l : list ifaddrs) (fr : frame) : result frame :=
  match l with
  | [] => Ret fr
  | ifa :: next => fr' ← loop_body ifa fr; for_loop next fr'
  end.

(** [freeifaddrs(p)]: releasing through a stray pointer is undefined. *)
Definition freeifaddrs (p : ifaddrs_ptr) (fr : frame) : result frame :=
  match p with
  | Head _ => Ret (log_call (Call_freeifaddrs p) fr)
  | Stray => Fault
  end.

Definition enumeration_failed : string :=
  "Error occurred when searching for network interfaces".

(** [ListInterfaces].  [stack] is what the uninitialised local variable
    [interfaces] holds when the function is entered.  After the exception is
    made pending there is no [return]: the control goes on to the loop and
    to [freeifaddrs]. *)
Definition ListInterfaces (stack : ifaddrs_ptr) (q : os_query) : result frame :=
  let fr := mk_frame None [] 0 [] in
  let '(rc, interfaces) := getifaddrs q stack in
  let fr := log_call (Call_getifaddrs rc interfaces) fr in
  let fr :=
    if bool_decide (rc ≠ 0)
    then ThrowAsJavaScriptException enumeration_failed fr
    else fr in
  fr ← match interfaces with
       | Head l => for_loop l fr
       | Stray => Fault
       end;
  fr ← freeifaddrs interfaces fr;
  Ret fr.

(** What JavaScript sees of a call that returned: the value [out] unless an
    exception is pending. *)
Definition js_result (fr : frame) : js_outcome :=
  match last_exception fr with
  | Some msg => Throws msg
  | None => Returns (out fr)
  end.

(** [listInterfaces()], the function [Init] exports. *)
Definition listInterfaces (stack : ifaddrs_ptr) (q : os_query)
    : result js_outcome :=
  fr ← ListInterfaces stack q; Ret (js_result fr).

(** ** Sample systems (the scenarios of the specification) *)

Definition inet (a b c d : byte) : option sockaddr :=
  Some (mk_sockaddr AF_INET 0 (mk_in_addr a b c d)).

Definition lo : ifaddrs :=
  mk_ifaddrs "lo" 65609 (inet x7f x00 x00 x01) (inet xff x00 x00 x00)
    (inet x7f xff xff xff).

Definition eth0 : ifaddrs :=
  mk_ifaddrs "eth0" 69699 (inet xc0 xa8 x01 x0a) (inet xff xff xff x00)
    (inet xc0 xa8 x01 xff).

(** The IPv6 entry of [eth0]; 10 is [AF_INET6]. *)
Definition eth0_v6 : ifaddrs :=
  mk_ifaddrs "eth0" 69699
    (Some (mk_sockaddr 10 0 (mk_in_addr x00 x00 x00 x00)))
    (Some (mk_sockaddr 10 0 (mk_in_addr x00 x00 x00 x00))) None.

(** A tunnel device without an address: [ifa_addr] is null. *)
Definition tun0 : ifaddrs := mk_ifaddrs "tun0" 4305 None None None.

Definition record (name address broadcast : string) : Object :=
  <["broadcast" := broadcast]> (<["address" := address]> (<["name" := name]> ∅)).

(** ** Vocabulary of the specification

    The definitions below are not translations of code: they are the terms
    in which the properties of [ListInterfaces] are stated. *)

(** The entry is an IPv4 address entry. *)
Definition is_ipv4 (ifa : ifaddrs) : bool :=
  match ifa_addr ifa with
  | Some sa => bool_decide (sa_family sa = AF_INET)
  | None => false
  end.

(** The entry can be processed without a fault: [ifa_addr] is not null and,
    on an IPv4 entry, [ifa_broadaddr] is not null either. *)
Definition readable (ifa : ifaddrs) : bool :=
  match ifa_addr ifa with
  | Some sa =>
      bool_decide (sa_family sa ≠ AF_INET)
      || bool_decide (is_Some (ifa_broadaddr ifa))
  | None => false
  end.

(** The dotted-decimal text of the address a pointer refers to. *)
Definition text_of (p : option sockaddr) : string :=
  from_option (λ sa, dotted (sin_addr sa)) EmptyString p.

(** The record of an IPv4 entry: the name as JavaScript decodes it and the
    dotted-decimal texts of the two addresses. *)
Definition record_of (ifa : ifaddrs) : Object :=
  record (String_New (ifa_name ifa)) (text_of (ifa_addr ifa))
    (text_of (ifa_broadaddr ifa)).

(** The entry with its interface flags replaced. *)
Definition with_flags (flags : Z) (ifa : ifaddrs) : ifaddrs :=
  mk_ifaddrs (ifa_name ifa) flags (ifa_addr ifa) (ifa_netmask ifa)
    (ifa_ifu ifa).

(** A point-to-point link that is down: no [IFF_UP], no [IFF_BROADCAST];
    the slot [ifa_ifu] holds the address of the peer. *)
Definition ppp0 : ifaddrs :=
  mk_ifaddrs "ppp0" 16 (inet x0a x00 x00 x01) (inet xff xff xff xff)
    (inet x0a x00 x00 x02).

(** An IPv4 entry whose [ifa_ifu] slot points at a link-layer address (17 is
    [AF_PACKET]). *)
Definition odd0 : ifaddrs :=
  mk_ifaddrs "odd0" 0 (inet x0a x00 x00 x03) None
    (Some (mk_sockaddr 17 0 (mk_in_addr x01 x02 x03 x04))).

(** Two aliases of one adapter. *)
Definition eth0_0 : ifaddrs :=
  mk_ifaddrs "eth0:0" 69699 (inet xc0 xa8 x01 x0b) (inet xff xff xff x00)
    (inet xc0 xa8 x01 xff).

Definition eth0_1 : ifaddrs :=
  mk_ifaddrs "eth0:1" 69699 (inet xc0 xa8 x01 x0c) (inet xff xff xff x00)
    (inet xc0 xa8 x01 xff).

(** An IPv4 entry whose [ifa_ifu] slot is null. *)
Definition wg0 : ifaddrs :=
  mk_ifaddrs "wg0" 209 (inet x0a x08 x00 x01) (inet xff xff xff x00) None.

(** What the loop reads of an entry: whether [ifa_addr] is null and, when it
    is not, whether the family is [AF_INET]; of an IPv4 entry also the
    name, the bytes at [sin_addr], whether the slot [ifa_ifu] is null and
    the bytes at [sin_addr] of the socket address it points at. *)
Definition view (ifa : ifaddrs)
    : option (option (string * in_addr * option in_addr)) :=
  match ifa_addr ifa with
  | None => None
  | Some sa =>
      Some (if bool_decide (sa_family sa = AF_INET)
            then Some (ifa_name ifa, sin_addr sa, sin_addr <$> ifa_ifu ifa)
            else None)
  end.

(** ** The shape of a text field *)

Fixpoint string_forallb (p : ascii → bool) (s : string) : bool :=
  match s with
  | EmptyString => true
  | String c s' => p c && string_forallb p s'
  end.

(** A decimal digit or a dot. *)
Definition dotted_char (c : ascii) : bool := is_digit c || Ascii.eqb c ".".

(** Seven to fifteen characters, each a digit or a dot. *)
Definition dotted_shape (s : string) : bool :=
  string_forallb dotted_char s
  && bool_decide (7 ≤ String.length s ≤ 15)%nat.

(** Every byte is an ASCII character other than NUL. *)
Definition plain_ascii (s : string) : bool :=
  string_forallb (λ c, (1 <=? N_of_ascii c)%N && (N_of_ascii c <=? 127)%N) s.

(** What a record shows of an IPv4 entry: the name as JavaScript decodes
    it, the bytes of the unicast address and the bytes at [sin_addr] in the
    broadcast slot. *)
Definition shown (ifa : ifaddrs) : string * option in_addr * option in_addr :=
  (String_New (ifa_name ifa), sin_addr <$> ifa_addr ifa,
   sin_addr <$> ifa_ifu ifa).

(** The link-layer entry of the loopback interface (17 is [AF_PACKET]). *)
Definition lo_ll : ifaddrs :=
  mk_ifaddrs "lo" 65609
    (Some (mk_sockaddr 17 0 (mk_in_addr x00 x00 x00 x01))) None None.

(** Two tap devices whose names are single bytes that are not UTF-8: FF and
    FE. *)
Definition tap_ff : ifaddrs :=
  mk_ifaddrs (String "255" EmptyString) 4163 (inet x0a x09 x00 x01)
    (inet xff xff xff x00) (inet x0a x09 x00 xff).

Definition tap_fe : ifaddrs :=
  mk_ifaddrs (String "254" EmptyString) 4163 (inet x0a x09 x00 x01)
    (inet xff xff xff x00) (inet x0a x09 x00 xff).

(** ** Examples *)

Example dotted_loopback :
  dotted (mk_in_addr x7f x00 x00 x01) = "127.0.0.1"%string.
Proof. reflexivity. Qed.

Example inet_pton_loopback :
  inet_pton "127.0.0.1" = Some (mk_in_addr x7f x00 x00 x01).
Proof. reflexivity. Qed.

Example inet_pton_rejects_leading_zero : inet_pton "127.0.0.01" = None.
Proof. reflexivity. Qed.

Example inet_pton_rejects_three_octets : inet_pton "127.0.1" = None.
Proof. reflexivity. Qed.

Example String_New_keeps_ascii : String_New "eth0:1" = "eth0:1"%string.
Proof. reflexivity. Qed.

(** [C3 A9] is U+00E9 and [F0 9F 98 80] is U+1F600: well-formed sequences
    are kept. *)
Example String_New_keeps_utf8 :
  String_New (String "195" (String "169" (String "240" (String "159"
                (String "152" (String "128" EmptyString))))))
  = String "195" (String "169" (String "240" (String "159"
      (String "152" (String "128" EmptyString))))).
Proof. reflexivity. Qed.

Example String_New_replaces_invalid_byte :
  String_New (String "a" (String "255" (String "b" EmptyString)))
  = ("a" +:+ replacement_character +:+ "b")%string.
Proof. reflexivity. Qed.

(** An overlong form [E0 80] gives one U+FFFD for each byte, a sequence cut
    short by the end of the string ([E2 82]) gives one in all. *)
Example String_New_overlong :
  String_New (String "224" (String "128" EmptyString))
  = (replacement_character +:+ replacement_character)%string.
Proof. reflexivity. Qed.

Example String_New_truncated :
  String_New (String "a" (String "226" (String "130" EmptyString)))
  = ("a" +:+ replacement_character)%string.
Proof. reflexivity. Qed.

(** A surrogate [ED A0 80] is ill-formed: three U+FFFD. *)
Example String_New_surrogate :
  String_New (String "237" (String "160" (String "128" EmptyString)))
  = (replacement_character +:+ replacement_character
     +:+ replacement_character)%string.
Proof. reflexivity. Qed.

Example String_New_stops_at_nul :
  String_New (String "a" (String "000" (String "b" EmptyString)))
  = "a"%string.
Proof. reflexivity. Qed.

Example scenario_loopback :
  listInterfaces Stray (QueryOk [lo])
  = Ret (Returns [Some (record "lo" "127.0.0.1" "127.255.255.255")]).
Proof. vm_compute. reflexivity. Qed.

Example scenario_multi_homed :
  listInterfaces Stray (QueryOk [eth0; eth0_v6])
  = Ret (Returns [Some (record "eth0" "192.168.1.10" "192.168.1.255")]).
Proof. vm_compute. reflexivity. Qed.

Example scenario_no_interfaces :
  listInterfaces Stray (QueryOk []) = Ret (Returns []).
Proof. reflexivity. Qed.

Example scenario_query_fails (stack : ifaddrs_ptr) :
  listInterfaces stack (QueryFail true)
  = Ret (Throws "Error occurred when searching for network interfaces").
Proof. reflexivity. Qed.

Example scenario_aliases :
  listInterfaces Stray (QueryOk [eth0_0; eth0_1])
  = Ret (Returns [Some (record "eth0:0" "192.168.1.11" "192.168.1.255");
                  Some (record "eth0:1" "192.168.1.12" "192.168.1.255")]).
Proof. vm_compute. reflexivity. Qed.

Example same_entry_twice :
  listInterfaces Stray (QueryOk [eth0; eth0])
  = Ret (Returns [Some (record "eth0" "192.168.1.10" "192.168.1.255");
                  Some (record "eth0" "192.168.1.10" "192.168.1.255")]).
Proof. vm_compute. reflexivity. Qed.

Example scenario_null_broadcast :
  listInterfaces Stray (QueryOk [lo; wg0]) = Fault.
Proof. reflexivity. Qed.

Example scenario_null_address :
  listInterfaces Stray (QueryOk [lo; tun0]) = Fault.
Proof. reflexivity. Qed.

(** ** Properties of the address conversions *)


Lemma string_length_app (s1 s2 : string) :
  String.length (s1 +:+ s2) = (String.length s1 + String.length s2)%nat.
Proof.
  induction s1 as [|c s1 IH]; [done |].
  change (S (String.length (s1 +:+ s2))
          = S (String.length s1 + String.length s2)). by rewrite IH.
Qed.

Lemma string_app_empty_r (s : string) : s +:+ EmptyString = s.
Proof.
  induction s as [|c s IH]; [done |].
  change (String c (s +:+ EmptyString) = String c s). by rewrite IH.
Qed.

(** An octet prints as one to three characters. *)
Lemma octet_length (b : byte) : (String.length (octet b) ≤ 3)%nat.
Proof. destruct b; vm_compute; lia. Qed.

Lemma dotted_length (a : in_addr) : (String.length (dotted a) ≤ 15)%nat.
Proof.
  destruct a as [b0 b1 b2 b3]. unfold dotted. simpl.
  rewrite !string_length_app. simpl.
  pose proof (octet_length b0). pose proof (octet_length b1).
  pose proof (octet_length b2). pose proof (octet_length b3). lia.
Qed.

(** With a buffer of [INET_ADDRSTRLEN] bytes the conversion of an IPv4
    address cannot fail. *)
Lemma inet_ntop_fits (a : in_addr) :
  inet_ntop AF_INET a INET_ADDRSTRLEN = Some (dotted a).
Proof.
  unfold inet_ntop. rewrite bool_decide_eq_true_2 by done.
  rewrite bool_decide_eq_true_2; [done |].
  pose proof (dotted_length a). unfold INET_ADDRSTRLEN. lia.
Qed.

(** Scanning the text of an octet from a state that expects one reads the
    octet back. *)
Lemma pton_scan_octet (b : byte) (done : list N) (rest : string) :
  (length done < 4)%nat →
  pton_scan (octet b +:+ rest) (mk_pton done 0%N false)
  = pton_scan rest (mk_pton done (Byte.to_N b) true).
Proof.
  intros Hlen.
  destruct done as [|n0 [|n1 [|n2 [|n3 done]]]]; [| | | | simpl in Hlen; lia];
    destruct b; reflexivity.
Qed.

Lemma pton_scan_dot (n : N) (done : list N) (rest : string) :
  (length done < 3)%nat →
  pton_scan ("." +:+ rest) (mk_pton done n true)
  = pton_scan rest (mk_pton (done ++ [n]) 0%N false).
Proof.
  intros Hlen.
  destruct done as [|n0 [|n1 [|n2 done]]]; [| | | simpl in Hlen; lia];
    reflexivity.
Qed.

(** Binary to text to binary is the identity. *)
Lemma inet_pton_dotted (a : in_addr) : inet_pton (dotted a) = Some a.
Proof.
  destruct a as [b0 b1 b2 b3]. unfold inet_pton, dotted; simpl s_b0;
    simpl s_b1; simpl s_b2; simpl s_b3.
  rewrite pton_scan_octet by (simpl; lia).
  rewrite pton_scan_dot by (simpl; lia).
  rewrite pton_scan_octet by (simpl; lia).
  rewrite pton_scan_dot by (simpl; lia).
  rewrite pton_scan_octet by (simpl; lia).
  rewrite pton_scan_dot by (simpl; lia).
  rewrite <- (string_app_empty_r (octet b3)).
  rewrite pton_scan_octet by (simpl; lia).
  unfold pton_finish; simpl.
  by rewrite !Byte.of_to_N.
Qed.


(** ** Decoding ASCII text *)

Lemma string_forallb_app (p : ascii → bool) (s1 s2 : string) :
  string_forallb p (s1 +:+ s2) = string_forallb p s1 && string_forallb p s2.
Proof.
  induction s1 as [|c s1 IH]; [done |].
  change (p c && string_forallb p (s1 +:+ s2)
          = p c && string_forallb p s1 && string_forallb p s2).
  rewrite IH. by destruct (p c).
Qed.

Lemma c_str_ascii (s : string) : plain_ascii s → c_str s = s.
Proof.
  induction s as [|c s IH]; [done |].
  unfold plain_ascii. cbn [string_forallb c_str].
  intros [Hc Hs]%andb_prop_elim.
  apply andb_prop_elim in Hc as [Hlo _]. apply Is_true_true_1, N.leb_le in Hlo.
  destruct (Ascii.eqb_spec c "000") as [-> | _]; [done |].
  by rewrite IH.
Qed.

Lemma utf8_decode_ascii (s : string) :
  plain_ascii s → utf8_decode s Utf8Accept = s.
Proof.
  induction s as [|c s IH]; [done |].
  unfold plain_ascii. cbn [string_forallb utf8_decode].
  intros [Hc Hs]%andb_prop_elim.
  apply andb_prop_elim in Hc as [_ Hhi]. apply Is_true_true_1 in Hhi.
  unfold utf8_lead. rewrite Hhi.
  change (String c (utf8_decode s Utf8Accept) = String c s).
  by rewrite IH.
Qed.

(** ASCII text without a NUL passes through [Napi::String::New] as it is. *)
Lemma String_New_ascii (s : string) : plain_ascii s → String_New s = s.
Proof.
  intros Hs. unfold String_New. rewrite c_str_ascii by done.
  by apply utf8_decode_ascii.
Qed.

Lemma plain_ascii_app (s1 s2 : string) :
  plain_ascii s1 → plain_ascii s2 → plain_ascii (s1 +:+ s2).
Proof.
  unfold plain_ascii. rewrite string_forallb_app.
  intros H1 H2. by apply andb_prop_intro.
Qed.

Lemma octet_plain_ascii (b : byte) : plain_ascii (octet b).
Proof. destruct b; exact I. Qed.

Lemma dotted_plain_ascii (a : in_addr) : plain_ascii (dotted a).
Proof.
  destruct a as [b0 b1 b2 b3]. unfold dotted. cbn [s_b0 s_b1 s_b2 s_b3].
  repeat (apply plain_ascii_app; [first [apply octet_plain_ascii | exact I] |]).
  apply octet_plain_ascii.
Qed.

Lemma String_New_dotted (a : in_addr) : String_New (dotted a) = dotted a.
Proof. apply String_New_ascii, dotted_plain_ascii. Qed.

(** ** The loop on readable entries *)

Lemma to_uint32_of_nat (n : nat) :
  Z.of_nat n ≤ INT_MAX → to_uint32 (Z.of_nat n) = n.
Proof.
  intros Hn. unfold to_uint32, INT_MAX in *.
  rewrite Z.mod_small by lia. apply Nat2Z.id.
Qed.

(** Storing at the index that equals the length appends one slot. *)
Lemma Array_set_at_length (a : Array) (obj : Object) :
  Array_set None a (length a) obj = a ++ [Some obj].
Proof.
  unfold Array_set. rewrite bool_decide_eq_false_2 by lia.
  by rewrite Nat.sub_diag.
Qed.

Lemma loop_body_readable (ifa : ifaddrs) (fr : frame) :
  last_exception fr = None →
  index fr = Z.of_nat (length (out fr)) →
  (is_ipv4 ifa → index fr < INT_MAX) →
  readable ifa →
  loop_body ifa fr
  = Ret (if is_ipv4 ifa
         then mk_frame None (out fr ++ [Some (record_of ifa)])
                (index fr + 1) (os_calls fr)
         else fr).
Proof.
  intros Hexc Hidx Hmax Hread.
  destruct ifa as [name flags [sa|] mask ifu]; [| done].
  destruct fr as [exc o i calls]. simpl in Hexc, Hidx, Hmax. subst exc i.
  unfold loop_body, is_ipv4, readable, record_of, ifa_broadaddr in *.
  cbn -[Array_set to_uint32 int_incr inet_ntop String_New] in *.
  destruct (decide (sa_family sa = AF_INET)) as [Hfam | Hfam].
  - rewrite bool_decide_eq_false_2 by tauto.
    rewrite bool_decide_eq_true_2 in Hmax |- * by done.
    rewrite (bool_decide_eq_false_2 (sa_family sa ≠ AF_INET)) in Hread by tauto.
    specialize (Hmax I).
    simpl in Hread. apply bool_decide_unpack in Hread as [sb ->].
    unfold inet_ntop_into. rewrite inet_ntop_fits.
    cbn -[Array_set to_uint32 int_incr inet_ntop String_New].
    rewrite inet_ntop_fits.
    cbn -[Array_set to_uint32 int_incr inet_ntop String_New].
    rewrite !String_New_dotted.
    rewrite to_uint32_of_nat by lia.
    rewrite Array_set_at_length.
    unfold int_incr. by rewrite bool_decide_eq_true_2 by lia.
  - rewrite bool_decide_eq_true_2 by done.
    by rewrite bool_decide_eq_false_2 by done.
Qed.

Lemma for_loop_readable (l : list ifaddrs) (fr : frame) :
  last_exception fr = None →
  index fr = Z.of_nat (length (out fr)) →
  index fr + Z.of_nat (length (filter is_ipv4 l)) ≤ INT_MAX →
  Forall readable l →
  for_loop l fr
  = Ret (mk_frame None
           (out fr ++ ((Some ∘ record_of) <$> filter is_ipv4 l))
           (index fr + Z.of_nat (length (filter is_ipv4 l)))
           (os_calls fr)).
Proof.
  revert fr. induction l as [|ifa l IH]; intros fr Hexc Hidx Hmax Hread.
  - simpl. rewrite app_nil_r, Z.add_0_r. destruct fr; simpl in *. by subst.
  - apply Forall_cons in Hread as [Hifa Hl].
    rewrite filter_cons in Hmax |- *. simpl for_loop.
    rewrite loop_body_readable; [| done | done | | done].
    + destruct (decide (is_ipv4 ifa)) as [Hv4 | Hv4].
      * rewrite (Is_true_true_1 _ Hv4). simpl in Hmax |- *.
        rewrite IH; simpl; [| done | | | done].
        -- f_equal. f_equal; [by rewrite <- app_assoc | lia].
        -- rewrite length_app. simpl. lia.
        -- lia.
      * rewrite (Is_true_false_1 _ Hv4). simpl. by apply IH.
    + intros Hv4. rewrite decide_True in Hmax by done. simpl in Hmax. lia.
Qed.

(** The whole call on a list of readable entries with fewer IPv4 entries
    than an [int] counts. *)
Lemma ListInterfaces_readable (stack : ifaddrs_ptr) (l : list ifaddrs) :
  Forall readable l →
  Z.of_nat (length (filter is_ipv4 l)) ≤ INT_MAX →
  ListInterfaces stack (QueryOk l)
  = Ret (mk_frame None ((Some ∘ record_of) <$> filter is_ipv4 l)
           (Z.of_nat (length (filter is_ipv4 l)))
           [Call_getifaddrs 0 (Head l); Call_freeifaddrs (Head l)]).
Proof.
  intros Hread Hmax. unfold ListInterfaces. simpl.
  rewrite for_loop_readable; simpl; done.
Qed.

(** ** Properties of records *)

Lemma record_name (n a b : string) : record n a b !! "name"%string = Some n.
Proof. unfold record. by simplify_map_eq. Qed.

Lemma record_address (n a b : string) :
  record n a b !! "address"%string = Some a.
Proof. unfold record. by simplify_map_eq. Qed.

Lemma record_broadcast (n a b : string) :
  record n a b !! "broadcast"%string = Some b.
Proof. unfold record. by simplify_map_eq. Qed.

Lemma record_dom (n a b : string) :
  dom (record n a b)
  = ({[ "name"%string; "address"%string; "broadcast"%string ]} : gset string).
Proof.
  unfold record. rewrite !dom_insert_L, dom_empty_L. set_solver.
Qed.

(** On a readable IPv4 entry both address pointers can be read. *)
Lemma readable_ipv4 (ifa : ifaddrs) :
  readable ifa → is_ipv4 ifa →
  ∃ sa sb, ifa_addr ifa = Some sa ∧ ifa_broadaddr ifa = Some sb
           ∧ sa_family sa = AF_INET.
Proof.
  unfold readable, is_ipv4. destruct (ifa_addr ifa) as [sa|]; [| done].
  intros Hread Hv4. apply bool_decide_unpack in Hv4.
  rewrite (bool_decide_eq_false_2 (sa_family sa ≠ AF_INET)) in Hread by tauto.
  simpl in Hread. apply bool_decide_unpack in Hread as [sb Hsb].
  by exists sa, sb.
Qed.

(** One record for an IPv4 entry and none for another entry, entry by entry,
    is the list of the records of the IPv4 entries. *)
Lemma bind_contribution (l : list ifaddrs) :
  l ≫= (λ ifa, if is_ipv4 ifa then [record_of ifa] else [])
  = record_of <$> filter is_ipv4 l.
Proof.
  induction l as [|ifa l IH]; [done |].
  rewrite bind_cons, filter_cons, IH.
  destruct (decide (is_ipv4 ifa)) as [Hv4 | Hv4].
  - by rewrite (Is_true_true_1 _ Hv4).
  - by rewrite (Is_true_false_1 _ Hv4).
Qed.

(** A property of every IPv4 entry and its record relates the IPv4 entries
    to the slots of the output, position by position. *)
Lemma Forall2_records (R : ifaddrs → option Object → Prop) (l : list ifaddrs) :
  (∀ ifa, ifa ∈ l → is_ipv4 ifa → R ifa (Some (record_of ifa))) →
  Forall2 R (filter is_ipv4 l) ((Some ∘ record_of) <$> filter is_ipv4 l).
Proof.
  intros HR. apply Forall2_fmap_r, Forall_Forall2_diag, Forall_forall.
  intros ifa [Hv4 Hin]%list_elem_of_filter. by apply HR.
Qed.

(** ** The claims on a successful query *)

(** The report [lo; tun0] has the IPv4 entry [lo], and the call on it faults
    at [tun0], whose [ifa_addr] is null: there is no output for [lo] to have
    a record in. *)
Lemma ipv4_entry_without_record :
  lo ∈ [lo; tun0] ∧ is_ipv4 lo
  ∧ ¬ ∃ fr, ListInterfaces Stray (QueryOk [lo; tun0]) = Ret fr
            ∧ out fr
              = Some <$> ([lo; tun0]
                          ≫= λ ifa, if is_ipv4 ifa then [record_of ifa] else []).
Proof.
  split; [by left |]. split; [exact I |].
  intros (fr & Hrun & _).
  change (ListInterfaces Stray (QueryOk [lo; tun0])) with (@Fault frame) in Hrun.
  discriminate Hrun.
Qed.

(** C3.  On a successful query whose entries are all readable ([ifa_addr]
    not null, [ifa_broadaddr] not null on an IPv4 entry) and with at most
    [INT_MAX] IPv4 entries, the call returns, and every entry of the list
    the system reports contributes to the output exactly one record if its
    address family is [AF_INET] and nothing otherwise; the output has as
    many slots as there are IPv4 entries, so entries with equal names or
    equal addresses are not merged. *)
Theorem ipv4_entries_one_record_each (stack : ifaddrs_ptr) (l : list ifaddrs) :
  Forall readable l →
  Z.of_nat (length (filter is_ipv4 l)) ≤ INT_MAX →
  ∃ fr, ListInterfaces stack (QueryOk l) = Ret fr
        ∧ out fr
          = Some <$> (l ≫= λ ifa, if is_ipv4 ifa then [record_of ifa] else [])
        ∧ length (out fr) = length (filter is_ipv4 l).
Proof.
  intros Hread Hmax. eexists. split; [by apply ListInterfaces_readable |].
  simpl. split.
  - by rewrite bind_contribution, <- list_fmap_compose.
  - by rewrite length_fmap.
Qed.

Lemma ipv4_entries_one_record_each_witness :
  Forall readable [lo; eth0_v6; eth0; eth0]
  ∧ Z.of_nat (length (filter is_ipv4 [lo; eth0_v6; eth0; eth0])) ≤ INT_MAX
  ∧ ∃ fr, ListInterfaces Stray (QueryOk [lo; eth0_v6; eth0; eth0]) = Ret fr
          ∧ out fr
            = Some <$> ([lo; eth0_v6; eth0; eth0]
                        ≫= λ ifa, if is_ipv4 ifa then [record_of ifa] else [])
          ∧ length (out fr) = length (filter is_ipv4 [lo; eth0_v6; eth0; eth0]).
Proof.
  assert (H1 : Forall readable [lo; eth0_v6; eth0; eth0])
    by (repeat constructor).
  assert (H2 : Z.of_nat (length (filter is_ipv4 [lo; eth0_v6; eth0; eth0]))
               ≤ INT_MAX) by (vm_compute; discriminate).
  exact (conj H1 (conj H2 (ipv4_entries_one_record_each Stray _ H1 H2))).
Defined.

(** The report [lo; wg0] has two IPv4 entries, and the call on it faults at
    [wg0], whose [ifa_broadaddr] is null: there is no output sequence. *)
Lemma no_output_sequence_on_null_broadcast :
  filter is_ipv4 [lo; wg0] = [lo; wg0]
  ∧ ¬ ∃ fr, ListInterfaces Stray (QueryOk [lo; wg0]) = Ret fr
            ∧ out fr = (Some ∘ record_of) <$> filter is_ipv4 [lo; wg0].
Proof.
  split; [reflexivity |].
  intros (fr & Hrun & _).
  change (ListInterfaces Stray (QueryOk [lo; wg0])) with (@Fault frame) in Hrun.
  discriminate Hrun.
Qed.

(** C5.  On a successful query whose entries are all readable and with at
    most [INT_MAX] IPv4 entries, the call returns and the output is the list
    of the records of the IPv4 entries, in the order of the list the system
    reports: the reported list with the other entries removed. *)
Theorem output_keeps_reported_order (stack : ifaddrs_ptr) (l : list ifaddrs) :
  Forall readable l →
  Z.of_nat (length (filter is_ipv4 l)) ≤ INT_MAX →
  ∃ fr, ListInterfaces stack (QueryOk l) = Ret fr
        ∧ out fr = (Some ∘ record_of) <$> filter is_ipv4 l
        ∧ filter is_ipv4 l `sublist_of` l.
Proof.
  intros Hread Hmax. eexists. split; [by apply ListInterfaces_readable |].
  split; [done | apply sublist_filter].
Qed.

Lemma output_keeps_reported_order_witness :
  Forall readable [eth0_v6; eth0; lo; eth0_v6; ppp0]
  ∧ Z.of_nat (length (filter is_ipv4 [eth0_v6; eth0; lo; eth0_v6; ppp0]))
    ≤ INT_MAX
  ∧ ∃ fr, ListInterfaces Stray (QueryOk [eth0_v6; eth0; lo; eth0_v6; ppp0])
          = Ret fr
          ∧ out fr = (Some ∘ record_of)
                     <$> filter is_ipv4 [eth0_v6; eth0; lo; eth0_v6; ppp0]
          ∧ filter is_ipv4 [eth0_v6; eth0; lo; eth0_v6; ppp0]
            `sublist_of` [eth0_v6; eth0; lo; eth0_v6; ppp0].
Proof.
  assert (H1 : Forall readable [eth0_v6; eth0; lo; eth0_v6; ppp0])
    by (repeat constructor).
  assert (H2 : Z.of_nat
                 (length (filter is_ipv4 [eth0_v6; eth0; lo; eth0_v6; ppp0]))
               ≤ INT_MAX) by (vm_compute; discriminate).
  exact (conj H1 (conj H2 (output_keeps_reported_order Stray _ H1 H2))).
Defined.

(** C4.  On a successful query, the [address] and [broadcast] fields of the
    record of every IPv4 entry are dotted-decimal texts that parse back to
    the four bytes, and so to the 32-bit value, of the entry's unicast
    address and of its broadcast address slot. *)
Theorem address_text_round_trip (stack : ifaddrs_ptr) (l : list ifaddrs) :
  Forall readable l →
  Z.of_nat (length (filter is_ipv4 l)) ≤ INT_MAX →
  ∃ fr, ListInterfaces stack (QueryOk l) = Ret fr
        ∧ Forall2
            (λ ifa slot, ∃ obj sa sb address broadcast,
               slot = Some obj
               ∧ ifa_addr ifa = Some sa ∧ ifa_broadaddr ifa = Some sb
               ∧ obj !! "address"%string = Some address
               ∧ obj !! "broadcast"%string = Some broadcast
               ∧ inet_pton address = Some (sin_addr sa)
               ∧ inet_pton broadcast = Some (sin_addr sb)
               ∧ s_addr <$> inet_pton address = Some (s_addr (sin_addr sa))
               ∧ s_addr <$> inet_pton broadcast = Some (s_addr (sin_addr sb)))
            (filter is_ipv4 l) (out fr).
Proof.
  intros Hread Hmax. eexists. split; [by apply ListInterfaces_readable |].
  simpl. apply Forall2_records. intros ifa Hin Hv4.
  rewrite Forall_forall in Hread.
  destruct (readable_ipv4 ifa (Hread _ Hin) Hv4) as (sa & sb & Ha & Hb & _).
  exists (record_of ifa), sa, sb, (dotted (sin_addr sa)), (dotted (sin_addr sb)).
  unfold record_of. rewrite Ha, Hb. simpl.
  rewrite record_address, record_broadcast, !inet_pton_dotted. done.
Qed.

Lemma address_text_round_trip_witness :
  Forall readable [lo; eth0_v6; eth0; odd0]
  ∧ Z.of_nat (length (filter is_ipv4 [lo; eth0_v6; eth0; odd0])) ≤ INT_MAX
  ∧ ∃ fr, ListInterfaces Stray (QueryOk [lo; eth0_v6; eth0; odd0]) = Ret fr
        ∧ Forall2
            (λ ifa slot, ∃ obj sa sb address broadcast,
               slot = Some obj
               ∧ ifa_addr ifa = Some sa ∧ ifa_broadaddr ifa = Some sb
               ∧ obj !! "address"%string = Some address
               ∧ obj !! "broadcast"%string = Some broadcast
               ∧ inet_pton address = Some (sin_addr sa)
               ∧ inet_pton broadcast = Some (sin_addr sb)
               ∧ s_addr <$> inet_pton address = Some (s_addr (sin_addr sa))
               ∧ s_addr <$> inet_pton broadcast = Some (s_addr (sin_addr sb)))
            (filter is_ipv4 [lo; eth0_v6; eth0; odd0]) (out fr).
Proof.
  assert (H1 : Forall readable [lo; eth0_v6; eth0; odd0])
    by (repeat constructor).
  assert (H2 : Z.of_nat (length (filter is_ipv4 [lo; eth0_v6; eth0; odd0]))
               ≤ INT_MAX) by (vm_compute; discriminate).
  exact (conj H1 (conj H2 (address_text_round_trip Stray _ H1 H2))).
Defined.

(** A tap device named by the single byte FF is listed under the name
    U+FFFD: [name] is not the name the system supplied. *)
Lemma name_is_not_the_supplied_bytes :
  ∃ obj : Object,
    listInterfaces Stray (QueryOk [tap_ff]) = Ret (Returns [Some obj])
    ∧ obj !! "name"%string = Some replacement_character
    ∧ obj !! "name"%string ≠ Some (ifa_name tap_ff).
Proof.
  exists (record_of tap_ff). split; [by vm_compute |].
  unfold record_of. rewrite record_name. split; [reflexivity | discriminate].
Qed.

(** C7.  On a successful query whose entries are all readable and with at
    most [INT_MAX] IPv4 entries, the record of every IPv4 entry has the
    three properties [name], [address] and [broadcast] and no other, each
    holding a string; [name] is the interface name of the entry as
    [Napi::String::New] decodes it from UTF-8, which is the name itself when
    the name is ASCII. *)
Theorem records_have_three_fields (stack : ifaddrs_ptr) (l : list ifaddrs) :
  Forall readable l →
  Z.of_nat (length (filter is_ipv4 l)) ≤ INT_MAX →
  ∃ fr, ListInterfaces stack (QueryOk l) = Ret fr
        ∧ Forall2
            (λ ifa slot, ∃ obj : Object,
               slot = Some obj
               ∧ dom obj = {[ "name"%string; "address"%string;
                              "broadcast"%string ]}
               ∧ size obj = 3%nat
               ∧ obj !! "name"%string = Some (String_New (ifa_name ifa))
               ∧ (plain_ascii (ifa_name ifa) →
                  obj !! "name"%string = Some (ifa_name ifa)))
            (filter is_ipv4 l) (out fr).
Proof.
  intros Hread Hmax. eexists. split; [by apply ListInterfaces_readable |].
  cbn [out]. apply Forall2_records. intros ifa _ _.
  exists (record_of ifa). unfold record_of.
  rewrite record_dom, record_name. repeat split.
  intros Hascii. by rewrite String_New_ascii.
Qed.

Lemma records_have_three_fields_witness :
  Forall readable [lo; eth0; eth0_v6; tap_ff]
  ∧ Z.of_nat (length (filter is_ipv4 [lo; eth0; eth0_v6; tap_ff])) ≤ INT_MAX
  ∧ ∃ fr, ListInterfaces Stray (QueryOk [lo; eth0; eth0_v6; tap_ff]) = Ret fr
        ∧ Forall2
            (λ ifa slot, ∃ obj : Object,
               slot = Some obj
               ∧ dom obj = {[ "name"%string; "address"%string;
                              "broadcast"%string ]}
               ∧ size obj = 3%nat
               ∧ obj !! "name"%string = Some (String_New (ifa_name ifa))
               ∧ (plain_ascii (ifa_name ifa) →
                  obj !! "name"%string = Some (ifa_name ifa)))
            (filter is_ipv4 [lo; eth0; eth0_v6; tap_ff]) (out fr).
Proof.
  assert (H1 : Forall readable [lo; eth0; eth0_v6; tap_ff])
    by (repeat constructor).
  assert (H2 : Z.of_nat (length (filter is_ipv4 [lo; eth0; eth0_v6; tap_ff]))
               ≤ INT_MAX) by (vm_compute; discriminate).
  exact (conj H1 (conj H2 (records_have_three_fields Stray _ H1 H2))).
Defined.

(** ** What the loop leaves alone *)

(** The loop body neither changes the pending exception nor calls the
    operating system. *)
Lemma loop_body_keeps (ifa : ifaddrs) (fr fr' : frame) :
  loop_body ifa fr = Ret fr' →
  last_exception fr' = last_exception fr ∧ os_calls fr' = os_calls fr.
Proof.
  unfold loop_body. destruct (ifa_addr ifa) as [sa|]; [| done]. simpl.
  case_bool_decide; [by intros [= <-] |].
  destruct (inet_ntop_into _ (sin_addr sa) _ _); [| done]. simpl.
  destruct (ifa_broadaddr ifa) as [sb|]; [| done]. simpl.
  destruct (inet_ntop_into _ (sin_addr sb) _ _); [| done]. simpl.
  unfold int_incr. case_bool_decide; [| done]. simpl. by intros [= <-].
Qed.

Lemma for_loop_keeps (l : list ifaddrs) (fr fr' : frame) :
  for_loop l fr = Ret fr' →
  last_exception fr' = last_exception fr ∧ os_calls fr' = os_calls fr.
Proof.
  revert fr. induction l as [|ifa l IH]; intros fr; simpl.
  - by intros [= <-].
  - destruct (loop_body ifa fr) as [|fr1] eqn:Hbody; [done |]. simpl.
    intros Hloop. apply IH in Hloop as [-> ->]. by apply (loop_body_keeps ifa).
Qed.

(** The part of the frame JavaScript can observe. *)
Lemma loop_body_observable (ifa : ifaddrs) (fr1 fr2 : frame) :
  last_exception fr1 = last_exception fr2 →
  out fr1 = out fr2 →
  index fr1 = index fr2 →
  match loop_body ifa fr1, loop_body ifa fr2 with
  | Ret a, Ret b =>
      last_exception a = last_exception b ∧ out a = out b ∧ index a = index b
  | Fault, Fault => True
  | _, _ => False
  end.
Proof.
  destruct fr1 as [e1 o1 i1 c1], fr2 as [e2 o2 i2 c2]. simpl.
  intros -> -> ->. unfold loop_body.
  destruct (ifa_addr ifa) as [sa|]; [| done]. simpl.
  case_bool_decide; [done |].
  destruct (inet_ntop_into _ (sin_addr sa) _ _); [| done]. simpl.
  destruct (ifa_broadaddr ifa) as [sb|]; [| done]. simpl.
  destruct (inet_ntop_into _ (sin_addr sb) _ _); [| done]. simpl.
  unfold int_incr. by case_bool_decide.
Qed.

Lemma for_loop_observable (l : list ifaddrs) (fr1 fr2 : frame) :
  last_exception fr1 = last_exception fr2 →
  out fr1 = out fr2 →
  index fr1 = index fr2 →
  match for_loop l fr1, for_loop l fr2 with
  | Ret a, Ret b =>
      last_exception a = last_exception b ∧ out a = out b ∧ index a = index b
  | Fault, Fault => True
  | _, _ => False
  end.
Proof.
  revert fr1 fr2. induction l as [|ifa l IH]; intros fr1 fr2 He Ho Hi; simpl.
  - done.
  - pose proof (loop_body_observable ifa fr1 fr2 He Ho Hi) as Hbody.
    destruct (loop_body ifa fr1) as [|a], (loop_body ifa fr2) as [|b];
      try done.
    simpl. destruct Hbody as (? & ? & ?). by apply IH.
Qed.

(** The loop does not read the interface flags. *)
Lemma for_loop_with_flags (flags : ifaddrs → Z) (l : list ifaddrs) (fr : frame) :
  for_loop ((λ ifa, with_flags (flags ifa) ifa) <$> l) fr = for_loop l fr.
Proof.
  revert fr. induction l as [|ifa l IH]; intros fr; [done |].
  simpl. change (loop_body (with_flags (flags ifa) ifa) fr)
    with (loop_body ifa fr).
  destruct (loop_body ifa fr); [done |]. apply IH.
Qed.

Lemma filter_no_ipv4 (l : list ifaddrs) :
  Forall (λ ifa, ¬ is_ipv4 ifa) l → filter is_ipv4 l = [].
Proof.
  induction 1 as [|ifa l Hifa _ IH]; [done |].
  by rewrite filter_cons, decide_False.
Qed.

(** A failed query never looks like a returned array. *)
Lemma failed_query_never_returns_array (stack : ifaddrs_ptr) (z : bool)
    (a : Array) :
  listInterfaces stack (QueryFail z) ≠ Ret (Returns a).
Proof.
  unfold listInterfaces, ListInterfaces.
  destruct z; simpl; [done |].
  destruct stack as [l|]; simpl; [| done].
  destruct (for_loop l _) as [|fr] eqn:Hfor; simpl; [done |].
  apply for_loop_keeps in Hfor as [Hexc _].
  unfold js_result. simpl in *. by rewrite Hexc.
Qed.

(** The report [lo_ll; tun0] has no IPv4 entry, and the call on it faults
    at [tun0], whose [ifa_addr] is null: it does not return an empty
    array. *)
Lemma no_ipv4_entry_and_a_fault :
  Forall (λ ifa, ¬ is_ipv4 ifa) [lo_ll; tun0]
  ∧ listInterfaces Stray (QueryOk [lo_ll; tun0]) = Fault
  ∧ listInterfaces Stray (QueryOk [lo_ll; tun0]) ≠ Ret (Returns []).
Proof.
  split; [repeat constructor; intros H; exact H |].
  split; [reflexivity | discriminate].
Qed.

Lemma readable_not_ipv4 (ifa : ifaddrs) :
  is_Some (ifa_addr ifa) → ¬ is_ipv4 ifa → readable ifa.
Proof.
  unfold readable, is_ipv4. intros [sa ->] Hv4.
  rewrite bool_decide_eq_true_2; [done |].
  intros Hfam. apply Hv4. by apply bool_decide_pack.
Qed.

(** C6.  When the query succeeds and none of the reported entries is an
    IPv4 entry, each of them having an [ifa_addr] that is not null (the
    empty list included), the call returns an empty array and no exception
    is pending; no failed query has this outcome. *)
Theorem no_ipv4_entry_is_success (stack : ifaddrs_ptr) (l : list ifaddrs) :
  Forall (λ ifa, is_Some (ifa_addr ifa)) l →
  Forall (λ ifa, ¬ is_ipv4 ifa) l →
  listInterfaces stack (QueryOk l) = Ret (Returns [])
  ∧ ∀ stack' z, listInterfaces stack' (QueryFail z) ≠ Ret (Returns []).
Proof.
  intros Haddr Hnone.
  split; [| intros; apply failed_query_never_returns_array].
  assert (Hread : Forall readable l).
  { rewrite Forall_forall in Haddr, Hnone |- *.
    intros ifa Hin. apply readable_not_ipv4; auto. }
  unfold listInterfaces. rewrite ListInterfaces_readable; [| done |].
  - by rewrite filter_no_ipv4.
  - by rewrite filter_no_ipv4.
Qed.

Lemma no_ipv4_entry_is_success_witness :
  Forall (λ ifa, is_Some (ifa_addr ifa)) [lo_ll; eth0_v6]
  ∧ Forall (λ ifa, ¬ is_ipv4 ifa) [lo_ll; eth0_v6]
  ∧ listInterfaces Stray (QueryOk [lo_ll; eth0_v6]) = Ret (Returns [])
  ∧ ∀ stack' z, listInterfaces stack' (QueryFail z) ≠ Ret (Returns []).
Proof.
  assert (H1 : Forall (λ ifa, is_Some (ifa_addr ifa)) [lo_ll; eth0_v6])
    by (repeat constructor; by eexists).
  assert (H2 : Forall (λ ifa, ¬ is_ipv4 ifa) [lo_ll; eth0_v6])
    by (repeat constructor; intros H; exact H).
  exact (conj H1 (conj H2 (no_ipv4_entry_is_success Stray _ H1 H2))).
Defined.

(** A successful [getifaddrs] overwrites the uninitialised variable
    [interfaces]; a failed one that leaves [*ifap] alone does not, and what
    the call does then depends on what the stack held. *)
Example failed_query_depends_on_stack :
  listInterfaces (Head []) (QueryFail false)
  ≠ listInterfaces Stray (QueryFail false).
Proof. discriminate. Qed.

(** ** Null address pointers *)

Lemma loop_body_null_address (ifa : ifaddrs) (fr : frame) :
  ifa_addr ifa = None → loop_body ifa fr = Fault.
Proof. unfold loop_body. by intros ->. Qed.

Lemma for_loop_null_address (l : list ifaddrs) (fr : frame) :
  Exists (λ ifa, ifa_addr ifa = None) l → for_loop l fr = Fault.
Proof.
  intros Hex. revert fr. induction Hex as [ifa l Hnull | ifa l _ IH]; intros fr.
  - simpl. by rewrite loop_body_null_address.
  - simpl. destruct (loop_body ifa fr); [done | apply IH].
Qed.

(** C9.  The family check reads through [ifa_addr] without testing it: when
    some entry of the reported list has a null [ifa_addr], the call has
    undefined behaviour. *)
Theorem null_address_is_undefined (stack : ifaddrs_ptr) (l : list ifaddrs) :
  Exists (λ ifa, ifa_addr ifa = None) l →
  ListInterfaces stack (QueryOk l) = Fault
  ∧ listInterfaces stack (QueryOk l) = Fault.
Proof.
  intros Hex. unfold listInterfaces, ListInterfaces. simpl.
  by rewrite for_loop_null_address.
Qed.

Lemma null_address_is_undefined_witness :
  Exists (λ ifa, ifa_addr ifa = None) [lo; eth0; tun0; ppp0]
  ∧ ListInterfaces Stray (QueryOk [lo; eth0; tun0; ppp0]) = Fault
  ∧ listInterfaces Stray (QueryOk [lo; eth0; tun0; ppp0]) = Fault.
Proof.
  assert (H1 : Exists (λ ifa, ifa_addr ifa = None) [lo; eth0; tun0; ppp0])
    by (do 2 apply Exists_cons_tl; apply Exists_cons_hd; reflexivity).
  exact (conj H1 (null_address_is_undefined Stray _ H1)).
Defined.

(** ** Interface flags *)

(** What JavaScript sees of a call does not depend on the flags of the
    reported entries. *)
Lemma listInterfaces_ignores_flags (stack : ifaddrs_ptr) (flags : ifaddrs → Z)
    (l : list ifaddrs) :
  listInterfaces stack (QueryOk ((λ ifa, with_flags (flags ifa) ifa) <$> l))
  = listInterfaces stack (QueryOk l).
Proof.
  unfold listInterfaces, ListInterfaces. simpl.
  rewrite for_loop_with_flags.
  match goal with
  | |- context [for_loop l ?fr1] =>
      match goal with
      | |- _ = ?rhs =>
          match rhs with
          | context [for_loop l ?fr2] =>
              pose proof (for_loop_observable l fr1 fr2 eq_refl eq_refl eq_refl)
                as Hobs;
              destruct (for_loop l fr1) as [|a], (for_loop l fr2) as [|b]
          end
      end
  end; try done.
  simpl. destruct Hobs as (He & Ho & _).
  unfold js_result. simpl. by rewrite He, Ho.
Qed.

(** A link that is down and has no broadcast address is listed, the address
    of its peer standing in the [broadcast] field. *)
Example point_to_point_link_is_listed :
  listInterfaces Stray (QueryOk [ppp0])
  = Ret (Returns [Some (record "ppp0" "10.0.0.1" "10.0.0.2")]).
Proof. vm_compute. reflexivity. Qed.

(** ** The failed query *)

(** C1.  When [getifaddrs] fails and leaves the variable [interfaces] as it
    was, the call does not stop at the exception it made pending: the loop
    starts from the stray pointer, which is undefined behaviour, where the
    specification asks for the error as the only outcome. *)
Theorem failed_query_runs_into_the_loop :
  listInterfaces Stray (QueryFail false) = Fault.
Proof. reflexivity. Qed.

(** Where the failing [getifaddrs] stores a null pointer the loop has
    nothing to walk and JavaScript sees the error. *)
Lemma failed_query_with_null_throws (stack : ifaddrs_ptr) :
  listInterfaces stack (QueryFail true) = Ret (Throws enumeration_failed).
Proof. reflexivity. Qed.

(** C2.  When [getifaddrs] fails and leaves the variable [interfaces] as it
    was, nothing has been acquired; the call goes on all the same, through
    the loop, to [freeifaddrs] on the pointer the variable holds.  On a
    stray pointer the release is undefined, as is the walk of the loop
    before it; when the stale value happens to point at a list, one the
    call never acquired, the call returns having released that list.  The
    specification asks for no release at all. *)
Theorem failed_query_reaches_freeifaddrs :
  getifaddrs (QueryFail false) Stray = (-1, Stray)
  ∧ ListInterfaces Stray (QueryFail false) = Fault
  ∧ freeifaddrs Stray
      (ThrowAsJavaScriptException enumeration_failed
         (log_call (Call_getifaddrs (-1) Stray) (mk_frame None [] 0 [])))
    = Fault
  ∧ ∃ fr, ListInterfaces (Head [lo]) (QueryFail false) = Ret fr
          ∧ os_calls fr
            = [Call_getifaddrs (-1) (Head [lo]); Call_freeifaddrs (Head [lo])].
Proof. repeat split. eexists. split; [by vm_compute | reflexivity]. Qed.

(** On a successful query over readable entries the list is acquired by the
    one call of [getifaddrs] and released by the one call of
    [freeifaddrs]. *)
Lemma successful_query_releases_once (stack : ifaddrs_ptr) (l : list ifaddrs) :
  Forall readable l →
  Z.of_nat (length (filter is_ipv4 l)) ≤ INT_MAX →
  ∃ fr, ListInterfaces stack (QueryOk l) = Ret fr
        ∧ os_calls fr
          = [Call_getifaddrs 0 (Head l); Call_freeifaddrs (Head l)].
Proof.
  intros Hread Hmax. eexists. split; [by apply ListInterfaces_readable |].
  done.
Qed.

(** ** When the call returns *)

(** A loop body that returns has read a readable entry and, on an IPv4
    entry, has incremented an [index] below [INT_MAX]. *)
Lemma loop_body_returns (ifa : ifaddrs) (fr fr' : frame) :
  loop_body ifa fr = Ret fr' →
  readable ifa ∧ (is_ipv4 ifa → index fr < INT_MAX).
Proof.
  unfold loop_body, readable, is_ipv4, ifa_broadaddr.
  destruct (ifa_addr ifa) as [sa|]; [| done].
  cbn -[inet_ntop int_incr Array_set to_uint32].
  destruct (decide (sa_family sa = AF_INET)) as [Hfam | Hfam].
  - rewrite (bool_decide_eq_false_2 (sa_family sa ≠ AF_INET)) by tauto.
    unfold inet_ntop_into. rewrite inet_ntop_fits.
    cbn -[inet_ntop int_incr Array_set to_uint32].
    destruct (ifa_ifu ifa) as [sb|]; [| done].
    cbn -[inet_ntop int_incr Array_set to_uint32].
    rewrite inet_ntop_fits. cbn -[inet_ntop int_incr Array_set to_uint32].
    unfold int_incr. case_bool_decide as Hidx; [| done]. intros _.
    by split.
  - rewrite (bool_decide_eq_true_2 (sa_family sa ≠ AF_INET)) by done.
    intros _. split; [done |]. by rewrite bool_decide_eq_false_2.
Qed.

Lemma for_loop_returns (l : list ifaddrs) (fr fr' : frame) :
  last_exception fr = None →
  index fr = Z.of_nat (length (out fr)) →
  index fr ≤ INT_MAX →
  for_loop l fr = Ret fr' →
  Forall readable l
  ∧ index fr + Z.of_nat (length (filter is_ipv4 l)) ≤ INT_MAX.
Proof.
  revert fr. induction l as [|ifa l IH]; intros fr Hexc Hidx Hle Hloop.
  - split; [done |]. simpl. lia.
  - simpl in Hloop.
    destruct (loop_body ifa fr) as [|fr1] eqn:Hbody; [done |].
    simpl in Hloop.
    destruct (loop_body_returns _ _ _ Hbody) as [Hread Hmax].
    rewrite loop_body_readable in Hbody by done.
    injection Hbody as <-. rewrite filter_cons.
    destruct (decide (is_ipv4 ifa)) as [Hv4 | Hv4].
    + rewrite (Is_true_true_1 _ Hv4) in Hloop. specialize (Hmax Hv4).
      apply IH in Hloop as [Hl Hb]; simpl in *.
      * split; [by constructor | lia].
      * done.
      * rewrite length_app. simpl. lia.
      * lia.
    + rewrite (Is_true_false_1 _ Hv4) in Hloop.
      apply IH in Hloop as [Hl Hb]; [| done | done | done].
      split; [by constructor | done].
Qed.

Lemma ListInterfaces_returns (stack : ifaddrs_ptr) (l : list ifaddrs)
    (fr : frame) :
  ListInterfaces stack (QueryOk l) = Ret fr →
  Forall readable l ∧ Z.of_nat (length (filter is_ipv4 l)) ≤ INT_MAX.
Proof.
  unfold ListInterfaces. simpl.
  destruct (for_loop l _) as [|fr1] eqn:Hloop; [done |]. intros _.
  by apply for_loop_returns in Hloop.
Qed.

(** X1.  A call on a successful query returns normally exactly when every
    reported entry is readable ([ifa_addr] not null, and [ifa_broadaddr] not
    null on an IPv4 entry) and the IPv4 entries are at most [INT_MAX]; in
    every other case it has undefined behaviour. *)
Theorem returns_iff_readable (stack : ifaddrs_ptr) (l : list ifaddrs) :
  (∃ fr, ListInterfaces stack (QueryOk l) = Ret fr)
  ↔ Forall readable l ∧ Z.of_nat (length (filter is_ipv4 l)) ≤ INT_MAX.
Proof.
  split.
  - intros [fr Hfr]. by apply ListInterfaces_returns in Hfr.
  - intros [Hread Hmax]. eexists. by apply ListInterfaces_readable.
Qed.

(** X2.  The broadcast address is read through [ifa_broadaddr] without a
    test: when some IPv4 entry of the reported list has a null
    [ifa_broadaddr], the call has undefined behaviour. *)
Theorem null_broadcast_is_undefined (stack : ifaddrs_ptr) (l : list ifaddrs) :
  Exists (λ ifa, is_ipv4 ifa ∧ ifa_broadaddr ifa = None) l →
  ListInterfaces stack (QueryOk l) = Fault
  ∧ listInterfaces stack (QueryOk l) = Fault.
Proof.
  intros Hex.
  assert (Hfault : ListInterfaces stack (QueryOk l) = Fault).
  { destruct (ListInterfaces stack (QueryOk l)) as [|fr] eqn:Hrun; [done |].
    apply ListInterfaces_returns in Hrun as [Hread _].
    apply Exists_exists in Hex as (ifa & Hin & Hv4 & Hnull).
    rewrite Forall_forall in Hread. specialize (Hread ifa Hin).
    unfold readable, is_ipv4 in *.
    destruct (ifa_addr ifa) as [sa|]; [| done].
    apply bool_decide_unpack in Hv4.
    rewrite (bool_decide_eq_false_2 (sa_family sa ≠ AF_INET)) in Hread by tauto.
    rewrite Hnull in Hread. simpl in Hread. done. }
  split; [done |]. unfold listInterfaces. by rewrite Hfault.
Qed.

Lemma null_broadcast_is_undefined_witness :
  Exists (λ ifa, is_ipv4 ifa ∧ ifa_broadaddr ifa = None) [lo; eth0_v6; wg0]
  ∧ ListInterfaces Stray (QueryOk [lo; eth0_v6; wg0]) = Fault
  ∧ listInterfaces Stray (QueryOk [lo; eth0_v6; wg0]) = Fault.
Proof.
  assert (H1 : Exists (λ ifa, is_ipv4 ifa ∧ ifa_broadaddr ifa = None)
                 [lo; eth0_v6; wg0])
    by (do 2 apply Exists_cons_tl; apply Exists_cons_hd; split;
        [exact I | reflexivity]).
  exact (conj H1 (null_broadcast_is_undefined Stray _ H1)).
Defined.

(** X3.  Whenever a call on a successful query returns, no exception is
    pending, so JavaScript receives the array; the array has no hole, it has
    one slot for each IPv4 entry and so at most as many slots as there are
    reported entries, and [index] equals its length. *)
Theorem returned_array_is_dense (stack : ifaddrs_ptr) (l : list ifaddrs)
    (fr : frame) :
  ListInterfaces stack (QueryOk l) = Ret fr →
  last_exception fr = None
  ∧ listInterfaces stack (QueryOk l) = Ret (Returns (out fr))
  ∧ Forall is_Some (out fr)
  ∧ length (out fr) = length (filter is_ipv4 l)
  ∧ (length (out fr) ≤ length l)%nat
  ∧ index fr = Z.of_nat (length (out fr)).
Proof.
  intros Hrun. unfold listInterfaces. rewrite Hrun.
  destruct (ListInterfaces_returns _ _ _ Hrun) as [Hread Hmax].
  rewrite ListInterfaces_readable in Hrun by done. injection Hrun as <-.
  simpl. rewrite length_fmap. repeat split.
  - apply Forall_fmap, Forall_true. intros ifa. by eexists.
  - apply length_filter.
Qed.

Lemma returned_array_is_dense_witness :
  ListInterfaces Stray (QueryOk [eth0_v6; lo; ppp0])
  = Ret (mk_frame None [Some (record_of lo); Some (record_of ppp0)] 2
           [Call_getifaddrs 0 (Head [eth0_v6; lo; ppp0]);
            Call_freeifaddrs (Head [eth0_v6; lo; ppp0])])
  ∧ listInterfaces Stray (QueryOk [eth0_v6; lo; ppp0])
    = Ret (Returns [Some (record_of lo); Some (record_of ppp0)])
  ∧ Forall is_Some [Some (record_of lo); Some (record_of ppp0)]
  ∧ length [Some (record_of lo); Some (record_of ppp0)]
    = length (filter is_ipv4 [eth0_v6; lo; ppp0])
  ∧ (length [Some (record_of lo); Some (record_of ppp0)]
     ≤ length [eth0_v6; lo; ppp0])%nat.
Proof.
  assert (H1 : ListInterfaces Stray (QueryOk [eth0_v6; lo; ppp0])
    = Ret (mk_frame None [Some (record_of lo); Some (record_of ppp0)] 2
             [Call_getifaddrs 0 (Head [eth0_v6; lo; ppp0]);
              Call_freeifaddrs (Head [eth0_v6; lo; ppp0])]))
    by (vm_compute; reflexivity).
  destruct (returned_array_is_dense Stray _ _ H1) as (_ & H2 & H3 & H4 & H5 & _).
  exact (conj H1 (conj H2 (conj H3 (conj H4 H5)))).
Defined.

(** X4.  Every call that returns has made exactly two calls to the operating
    system: [getifaddrs] first and [freeifaddrs] last, the latter on the
    pointer the former left in [interfaces]; the loop makes none. *)
Theorem two_os_calls_per_return (stack : ifaddrs_ptr) (q : os_query)
    (fr : frame) :
  ListInterfaces stack q = Ret fr →
  os_calls fr
  = [Call_getifaddrs (getifaddrs q stack).1 (getifaddrs q stack).2;
     Call_freeifaddrs (getifaddrs q stack).2].
Proof.
  unfold ListInterfaces.
  destruct (getifaddrs q stack) as [rc [l|]]; simpl; [| done].
  destruct (for_loop l _) as [|fr1] eqn:Hloop; simpl; [done |].
  intros [= <-]. apply for_loop_keeps in Hloop as [_ Hcalls].
  unfold log_call. simpl. rewrite Hcalls.
  by destruct (bool_decide (rc ≠ 0)).
Qed.

Lemma two_os_calls_per_return_witness :
  ListInterfaces Stray (QueryOk [lo; eth0_v6])
  = Ret (mk_frame None [Some (record_of lo)] 1
           [Call_getifaddrs 0 (Head [lo; eth0_v6]);
            Call_freeifaddrs (Head [lo; eth0_v6])])
  ∧ [Call_getifaddrs 0 (Head [lo; eth0_v6]);
     Call_freeifaddrs (Head [lo; eth0_v6])]
    = [Call_getifaddrs (getifaddrs (QueryOk [lo; eth0_v6]) Stray).1
         (getifaddrs (QueryOk [lo; eth0_v6]) Stray).2;
       Call_freeifaddrs (getifaddrs (QueryOk [lo; eth0_v6]) Stray).2].
Proof.
  assert (H1 : ListInterfaces Stray (QueryOk [lo; eth0_v6])
    = Ret (mk_frame None [Some (record_of lo)] 1
             [Call_getifaddrs 0 (Head [lo; eth0_v6]);
              Call_freeifaddrs (Head [lo; eth0_v6])]))
    by (vm_compute; reflexivity).
  exact (conj H1 (two_os_calls_per_return Stray _ _ H1)).
Defined.

(** X5.  Whenever a call on a failed query returns, JavaScript sees the
    exception with the fixed message and never an array, whatever the
    variable [interfaces] held. *)
Theorem failed_query_throws_when_it_returns (stack : ifaddrs_ptr) (z : bool)
    (o : js_outcome) :
  listInterfaces stack (QueryFail z) = Ret o →
  o = Throws "Error occurred when searching for network interfaces".
Proof.
  unfold listInterfaces, ListInterfaces.
  destruct z; simpl; [by intros [= <-] |].
  destruct stack as [l|]; simpl; [| done].
  destruct (for_loop l _) as [|fr] eqn:Hfor; simpl; [done |].
  apply for_loop_keeps in Hfor as [Hexc _].
  unfold js_result. simpl in *. rewrite Hexc. by intros [= <-].
Qed.

Lemma failed_query_throws_when_it_returns_witness :
  listInterfaces (Head []) (QueryFail false)
  = Ret (Throws "Error occurred when searching for network interfaces")
  ∧ Throws "Error occurred when searching for network interfaces"
    = Throws "Error occurred when searching for network interfaces".
Proof.
  assert (H1 : listInterfaces (Head []) (QueryFail false)
    = Ret (Throws "Error occurred when searching for network interfaces"))
    by reflexivity.
  exact (conj H1 (failed_query_throws_when_it_returns _ _ _ H1)).
Defined.

(** ** What the result depends on *)

Lemma loop_body_view (ifa1 ifa2 : ifaddrs) (fr : frame) :
  view ifa1 = view ifa2 → loop_body ifa1 fr = loop_body ifa2 fr.
Proof.
  unfold view, loop_body, ifa_broadaddr.
  destruct (ifa_addr ifa1) as [sa1|], (ifa_addr ifa2) as [sa2|]; try done.
  intros [= Hview]. cbn -[inet_ntop int_incr Array_set to_uint32].
  destruct (decide (sa_family sa1 = AF_INET)) as [H1 | H1],
           (decide (sa_family sa2 = AF_INET)) as [H2 | H2].
  - rewrite !bool_decide_eq_true_2 in Hview by done.
    injection Hview as -> -> Hifu.
    rewrite !(bool_decide_eq_false_2 (_ ≠ AF_INET)) by tauto.
    destruct (ifa_ifu ifa1) as [sb1|], (ifa_ifu ifa2) as [sb2|]; try done.
    simpl in Hifu. injection Hifu as Hsb.
    cbn -[inet_ntop int_incr Array_set to_uint32]. by rewrite Hsb.
  - rewrite (bool_decide_eq_true_2 _ H1), (bool_decide_eq_false_2 _ H2)
      in Hview. done.
  - rewrite (bool_decide_eq_false_2 _ H1), (bool_decide_eq_true_2 _ H2)
      in Hview. done.
  - by rewrite !(bool_decide_eq_true_2 (_ ≠ AF_INET)) by done.
Qed.

Lemma for_loop_view (l1 l2 : list ifaddrs) (fr : frame) :
  view <$> l1 = view <$> l2 → for_loop l1 fr = for_loop l2 fr.
Proof.
  revert l2 fr. induction l1 as [|ifa1 l1 IH]; intros [|ifa2 l2] fr; try done.
  intros [= Hview Htail]. simpl. rewrite (loop_body_view ifa1 ifa2) by done.
  destruct (loop_body ifa2 fr); [done |]. simpl. by apply IH.
Qed.

(** Two lists the loop treats alike show JavaScript the same result. *)
Lemma listInterfaces_of_loop (stack : ifaddrs_ptr) (l1 l2 : list ifaddrs) :
  (∀ fr, for_loop l1 fr = for_loop l2 fr) →
  listInterfaces stack (QueryOk l1) = listInterfaces stack (QueryOk l2).
Proof.
  intros Hloop. unfold listInterfaces, ListInterfaces. simpl.
  rewrite Hloop.
  match goal with
  | |- context [for_loop l2 ?fr1] =>
      match goal with
      | |- _ = ?rhs =>
          match rhs with
          | context [for_loop l2 ?fr2] =>
              pose proof (for_loop_observable l2 fr1 fr2 eq_refl eq_refl eq_refl)
                as Hobs;
              destruct (for_loop l2 fr1) as [|a], (for_loop l2 fr2) as [|b]
          end
      end
  end; try done.
  simpl. destruct Hobs as (He & Ho & _).
  unfold js_result. simpl. by rewrite He, Ho.
Qed.

(** X6.  The result depends on the reported entries through nothing but
    what the loop reads.  Two reports whose entries agree, one by one, on
    whether [ifa_addr] is null, on whether the family is [AF_INET] and, for
    the IPv4 entries, on the name, on the bytes of the unicast address, on
    whether the broadcast slot is null and on the four bytes at its
    [sin_addr], show JavaScript the same result: the netmask, the flags, the
    port, the family of the socket address in the broadcast slot and every
    other field of a non-IPv4 entry play no part. *)
Theorem result_depends_on_view_only (stack : ifaddrs_ptr)
    (l1 l2 : list ifaddrs) :
  view <$> l1 = view <$> l2 →
  listInterfaces stack (QueryOk l1) = listInterfaces stack (QueryOk l2).
Proof.
  intros Hview. apply listInterfaces_of_loop. intros fr. by apply for_loop_view.
Qed.

Lemma result_depends_on_view_only_witness :
  view <$> [lo; eth0_v6]
  = view <$> [mk_ifaddrs "lo" 0
                (Some (mk_sockaddr AF_INET 8080 (mk_in_addr x7f x00 x00 x01)))
                None
                (Some (mk_sockaddr 17 9 (mk_in_addr x7f xff xff xff)));
              mk_ifaddrs "sit0" 128
                (Some (mk_sockaddr 17 1 (mk_in_addr x01 x02 x03 x04)))
                None (inet x0a x00 x00 x01)]
  ∧ listInterfaces Stray (QueryOk [lo; eth0_v6])
    = listInterfaces Stray
        (QueryOk [mk_ifaddrs "lo" 0
                    (Some (mk_sockaddr AF_INET 8080
                             (mk_in_addr x7f x00 x00 x01)))
                    None
                    (Some (mk_sockaddr 17 9 (mk_in_addr x7f xff xff xff)));
                  mk_ifaddrs "sit0" 128
                    (Some (mk_sockaddr 17 1 (mk_in_addr x01 x02 x03 x04)))
                    None (inet x0a x00 x00 x01)]).
Proof.
  assert (H1 : view <$> [lo; eth0_v6]
    = view <$> [mk_ifaddrs "lo" 0
                  (Some (mk_sockaddr AF_INET 8080 (mk_in_addr x7f x00 x00 x01)))
                  None
                  (Some (mk_sockaddr 17 9 (mk_in_addr x7f xff xff xff)));
                mk_ifaddrs "sit0" 128
                  (Some (mk_sockaddr 17 1 (mk_in_addr x01 x02 x03 x04)))
                  None (inet x0a x00 x00 x01)]) by reflexivity.
  exact (conj H1 (result_depends_on_view_only Stray _ _ H1)).
Defined.

(** ** Longer and shorter reports *)

(** What a returned array says about the report. *)
Lemma listInterfaces_returns (stack : ifaddrs_ptr) (l : list ifaddrs)
    (a : Array) :
  listInterfaces stack (QueryOk l) = Ret (Returns a) →
  Forall readable l
  ∧ Z.of_nat (length (filter is_ipv4 l)) ≤ INT_MAX
  ∧ a = (Some ∘ record_of) <$> filter is_ipv4 l.
Proof.
  unfold listInterfaces.
  destruct (ListInterfaces stack (QueryOk l)) as [|fr] eqn:Hrun; [done |].
  destruct (ListInterfaces_returns _ _ _ Hrun) as [Hread Hmax].
  rewrite ListInterfaces_readable in Hrun by done. injection Hrun as <-.
  simpl. unfold js_result. simpl. by intros [= <-].
Qed.

Lemma listInterfaces_readable (stack : ifaddrs_ptr) (l : list ifaddrs) :
  Forall readable l →
  Z.of_nat (length (filter is_ipv4 l)) ≤ INT_MAX →
  listInterfaces stack (QueryOk l)
  = Ret (Returns ((Some ∘ record_of) <$> filter is_ipv4 l)).
Proof.
  intros Hread Hmax. unfold listInterfaces.
  by rewrite ListInterfaces_readable.
Qed.

(** X7.  The records of a report are those of its parts: when the call
    returns [a1] for one list and [a2] for another, and the two arrays
    together have at most [INT_MAX] slots, it returns [a1 ++ a2] for the
    first list followed by the second.  The record of an entry does not
    depend on the entries around it. *)
Theorem records_of_appended_reports (stack : ifaddrs_ptr)
    (l1 l2 : list ifaddrs) (a1 a2 : Array) :
  listInterfaces stack (QueryOk l1) = Ret (Returns a1) →
  listInterfaces stack (QueryOk l2) = Ret (Returns a2) →
  Z.of_nat (length a1 + length a2) ≤ INT_MAX →
  listInterfaces stack (QueryOk (l1 ++ l2)) = Ret (Returns (a1 ++ a2)).
Proof.
  intros (Hr1 & _ & ->)%listInterfaces_returns
         (Hr2 & _ & ->)%listInterfaces_returns Hmax.
  rewrite !length_fmap in Hmax.
  rewrite listInterfaces_readable.
  - by rewrite filter_app, fmap_app.
  - by apply Forall_app.
  - rewrite filter_app, length_app. done.
Qed.

Lemma records_of_appended_reports_witness :
  listInterfaces Stray (QueryOk [lo; eth0_v6])
  = Ret (Returns [Some (record_of lo)])
  ∧ listInterfaces Stray (QueryOk [eth0; ppp0])
    = Ret (Returns [Some (record_of eth0); Some (record_of ppp0)])
  ∧ Z.of_nat (length [Some (record_of lo)]
              + length [Some (record_of eth0); Some (record_of ppp0)])
    ≤ INT_MAX
  ∧ listInterfaces Stray (QueryOk ([lo; eth0_v6] ++ [eth0; ppp0]))
    = Ret (Returns ([Some (record_of lo)]
                    ++ [Some (record_of eth0); Some (record_of ppp0)])).
Proof.
  assert (H1 : listInterfaces Stray (QueryOk [lo; eth0_v6])
               = Ret (Returns [Some (record_of lo)]))
    by (vm_compute; reflexivity).
  assert (H2 : listInterfaces Stray (QueryOk [eth0; ppp0])
               = Ret (Returns [Some (record_of eth0); Some (record_of ppp0)]))
    by (vm_compute; reflexivity).
  assert (H3 : Z.of_nat (length [Some (record_of lo)]
                 + length [Some (record_of eth0); Some (record_of ppp0)])
               ≤ INT_MAX) by (vm_compute; discriminate).
  exact (conj H1 (conj H2 (conj H3
           (records_of_appended_reports Stray _ _ _ _ H1 H2 H3)))).
Defined.

Lemma sublist_readable (l1 l2 : list ifaddrs) :
  l1 `sublist_of` l2 →
  Forall readable l2 →
  Forall readable l1
  ∧ (length (filter is_ipv4 l1) ≤ length (filter is_ipv4 l2))%nat.
Proof.
  induction 1 as [|ifa l1 l2 _ IH | ifa l1 l2 _ IH]; intros Hread.
  - done.
  - apply Forall_cons in Hread as [Hifa Hl2].
    destruct (IH Hl2) as [Hl1 Hlen]. split; [by constructor |].
    rewrite !filter_cons. destruct (decide (is_ipv4 ifa)); simpl; lia.
  - apply Forall_cons in Hread as [Hifa Hl2].
    destruct (IH Hl2) as [Hl1 Hlen]. split; [done |].
    rewrite filter_cons. destruct (decide (is_ipv4 ifa)); simpl; lia.
Qed.

(** X8.  Undefined behaviour does not go away when entries are added: when
    the call faults on a report, it faults on every report that has the
    entries of the first among its own, in order.  One entry with a null
    pointer anywhere in the list is enough. *)
Theorem fault_survives_more_entries (stack : ifaddrs_ptr)
    (l1 l2 : list ifaddrs) :
  l1 `sublist_of` l2 →
  ListInterfaces stack (QueryOk l1) = Fault →
  ListInterfaces stack (QueryOk l2) = Fault.
Proof.
  intros Hsub Hfault.
  destruct (ListInterfaces stack (QueryOk l2)) as [|fr] eqn:Hrun; [done |].
  apply ListInterfaces_returns in Hrun as [Hread Hmax].
  destruct (sublist_readable _ _ Hsub Hread) as [Hread1 Hlen].
  rewrite ListInterfaces_readable in Hfault; [done | done | lia].
Qed.

Lemma fault_survives_more_entries_witness :
  [tun0] `sublist_of` [lo; tun0; eth0]
  ∧ ListInterfaces Stray (QueryOk [tun0]) = Fault
  ∧ ListInterfaces Stray (QueryOk [lo; tun0; eth0]) = Fault.
Proof.
  assert (H1 : [tun0] `sublist_of` [lo; tun0; eth0])
    by (apply sublist_cons, sublist_skip, sublist_nil_l).
  assert (H2 : ListInterfaces Stray (QueryOk [tun0]) = Fault) by reflexivity.
  exact (conj H1 (conj H2 (fault_survives_more_entries Stray _ _ H1 H2))).
Defined.

(** ** What a record tells *)

Lemma dotted_inj (a b : in_addr) : dotted a = dotted b → a = b.
Proof.
  intros Heq. apply (f_equal inet_pton) in Heq.
  rewrite !inet_pton_dotted in Heq. by injection Heq.
Qed.

Lemma record_inj (n a b n' a' b' : string) :
  record n a b = record n' a' b' → n = n' ∧ a = a' ∧ b = b'.
Proof.
  intros Heq.
  pose proof (f_equal (λ m : Object, m !! "name"%string) Heq) as Hn.
  pose proof (f_equal (λ m : Object, m !! "address"%string) Heq) as Ha.
  pose proof (f_equal (λ m : Object, m !! "broadcast"%string) Heq) as Hb.
  simpl in Hn, Ha, Hb.
  rewrite !record_name in Hn. rewrite !record_address in Ha.
  rewrite !record_broadcast in Hb. by simplify_eq.
Qed.

(** On a readable IPv4 entry the record holds what [shown] tells. *)
Lemma record_of_eq_iff_shown (e1 e2 : ifaddrs) :
  readable e1 → is_ipv4 e1 → readable e2 → is_ipv4 e2 →
  record_of e1 = record_of e2 ↔ shown e1 = shown e2.
Proof.
  intros Hr1 Hv1 Hr2 Hv2.
  destruct (readable_ipv4 e1 Hr1 Hv1) as (sa1 & sb1 & Ha1 & Hb1 & Hf1).
  destruct (readable_ipv4 e2 Hr2 Hv2) as (sa2 & sb2 & Ha2 & Hb2 & Hf2).
  unfold record_of, shown. unfold ifa_broadaddr in *.
  rewrite Ha1, Ha2, Hb1, Hb2. cbn [text_of from_option fmap option_fmap option_map].
  split.
  - intros (Hn & Ha & Hb)%record_inj.
    apply dotted_inj in Ha, Hb. by rewrite Hn, Ha, Hb.
  - intros [= Hn Ha Hb]. by rewrite Hn, Ha, Hb.
Qed.

(** X9.  A record tells the decoded name and the two addresses, and nothing
    is lost of the addresses.  When the call returns, two slots of the array
    hold equal records exactly when the two IPv4 entries they come from have
    the same name after [Napi::String::New] has decoded it, the same four
    bytes of unicast address and the same four bytes in the broadcast
    slot. *)
Theorem equal_records_iff_equal_shown (stack : ifaddrs_ptr) (l : list ifaddrs)
    (fr : frame) (i j : nat) (e1 e2 : ifaddrs) :
  ListInterfaces stack (QueryOk l) = Ret fr →
  filter is_ipv4 l !! i = Some e1 →
  filter is_ipv4 l !! j = Some e2 →
  out fr !! i = out fr !! j ↔ shown e1 = shown e2.
Proof.
  intros Hrun Hi Hj.
  destruct (ListInterfaces_returns _ _ _ Hrun) as [Hread Hmax].
  rewrite ListInterfaces_readable in Hrun by done. injection Hrun as <-.
  cbn [out]. rewrite !list_lookup_fmap, Hi, Hj.
  change (Some (Some (record_of e1)) = Some (Some (record_of e2))
          ↔ shown e1 = shown e2).
  rewrite Forall_forall in Hread.
  apply list_elem_of_lookup_2, list_elem_of_filter in Hi as [Hv1 Hin1].
  apply list_elem_of_lookup_2, list_elem_of_filter in Hj as [Hv2 Hin2].
  rewrite <- (record_of_eq_iff_shown e1 e2) by auto.
  split; [congruence | by intros ->].
Qed.

Lemma equal_records_iff_equal_shown_witness :
  ListInterfaces Stray (QueryOk [tap_ff; eth0_v6; lo; tap_fe])
  = Ret (mk_frame None
           [Some (record_of tap_ff); Some (record_of lo);
            Some (record_of tap_fe)]
           3
           [Call_getifaddrs 0 (Head [tap_ff; eth0_v6; lo; tap_fe]);
            Call_freeifaddrs (Head [tap_ff; eth0_v6; lo; tap_fe])])
  ∧ filter is_ipv4 [tap_ff; eth0_v6; lo; tap_fe] !! 0%nat = Some tap_ff
  ∧ filter is_ipv4 [tap_ff; eth0_v6; lo; tap_fe] !! 2%nat = Some tap_fe
  ∧ ([Some (record_of tap_ff); Some (record_of lo); Some (record_of tap_fe)]
       !! 0%nat
     = [Some (record_of tap_ff); Some (record_of lo); Some (record_of tap_fe)]
         !! 2%nat
     ↔ shown tap_ff = shown tap_fe).
Proof.
  assert (H1 : ListInterfaces Stray (QueryOk [tap_ff; eth0_v6; lo; tap_fe])
    = Ret (mk_frame None
             [Some (record_of tap_ff); Some (record_of lo);
              Some (record_of tap_fe)] 3
             [Call_getifaddrs 0 (Head [tap_ff; eth0_v6; lo; tap_fe]);
              Call_freeifaddrs (Head [tap_ff; eth0_v6; lo; tap_fe])]))
    by (vm_compute; reflexivity).
  assert (H2 : filter is_ipv4 [tap_ff; eth0_v6; lo; tap_fe] !! 0%nat
               = Some tap_ff) by reflexivity.
  assert (H3 : filter is_ipv4 [tap_ff; eth0_v6; lo; tap_fe] !! 2%nat
               = Some tap_fe) by reflexivity.
  exact (conj H1 (conj H2 (conj H3
           (equal_records_iff_equal_shown Stray _ _ _ _ _ _ H1 H2 H3)))).
Defined.

(** Two devices whose names are different bytes that are not UTF-8 get
    equal records. *)
Example undecodable_names_collapse :
  ifa_name tap_ff ≠ ifa_name tap_fe
  ∧ listInterfaces Stray (QueryOk [tap_ff])
    = listInterfaces Stray (QueryOk [tap_fe]).
Proof. split; [discriminate | by vm_compute]. Qed.

(** ** The text buffer *)

(** X10.  The buffer [ip_addr_buffer] is just large enough.  [inet_ntop]
    succeeds on every IPv4 address exactly when its buffer has at least
    [INET_ADDRSTRLEN] bytes, so the two conversions of the loop, whose
    return value is not looked at, never fail and never leave the buffer
    unwritten. *)
Theorem buffer_is_just_large_enough (size : nat) :
  (∀ a, inet_ntop AF_INET a size = Some (dotted a))
  ↔ (INET_ADDRSTRLEN ≤ size)%nat.
Proof.
  split.
  - intros Hall. specialize (Hall (mk_in_addr xff xff xff xff)).
    unfold inet_ntop in Hall. rewrite bool_decide_eq_true_2 in Hall by done.
    case_bool_decide as Hlen; [| done].
    change (String.length (dotted (mk_in_addr xff xff xff xff)))
      with 15%nat in Hlen.
    unfold INET_ADDRSTRLEN. lia.
  - intros Hsize a. unfold inet_ntop.
    rewrite bool_decide_eq_true_2 by done.
    rewrite bool_decide_eq_true_2; [done |].
    pose proof (dotted_length a). unfold INET_ADDRSTRLEN in Hsize. lia.
Qed.

(** ** The shape of the text fields *)

Lemma octet_shape (b : byte) :
  string_forallb dotted_char (octet b) = true
  ∧ (1 ≤ String.length (octet b) ≤ 3)%nat.
Proof. destruct b; vm_compute; (split; [reflexivity | lia]). Qed.

Lemma dotted_has_shape (a : in_addr) : dotted_shape (dotted a).
Proof.
  destruct a as [b0 b1 b2 b3]. unfold dotted_shape, dotted.
  cbn [s_b0 s_b1 s_b2 s_b3].
  destruct (octet_shape b0) as [Hc0 Hl0], (octet_shape b1) as [Hc1 Hl1],
           (octet_shape b2) as [Hc2 Hl2], (octet_shape b3) as [Hc3 Hl3].
  rewrite !string_forallb_app, !string_length_app, Hc0, Hc1, Hc2, Hc3.
  change (String.length ".") with 1%nat.
  change (string_forallb dotted_char ".") with true.
  rewrite bool_decide_eq_true_2 by lia. done.
Qed.

(** X12.  Whenever a call on a successful query returns, every slot of the
    array holds an object whose [address] and [broadcast] fields are texts
    of seven to fifteen characters, each character a decimal digit or a
    dot. *)
Theorem text_fields_have_dotted_shape (stack : ifaddrs_ptr)
    (l : list ifaddrs) (fr : frame) :
  ListInterfaces stack (QueryOk l) = Ret fr →
  Forall (λ slot, ∃ (obj : Object) address broadcast,
            slot = Some obj
            ∧ obj !! "address"%string = Some address
            ∧ obj !! "broadcast"%string = Some broadcast
            ∧ dotted_shape address ∧ dotted_shape broadcast)
    (out fr).
Proof.
  intros Hrun.
  destruct (ListInterfaces_returns _ _ _ Hrun) as [Hread Hmax].
  rewrite ListInterfaces_readable in Hrun by done. injection Hrun as <-.
  cbn [out]. apply Forall_fmap, Forall_forall.
  intros ifa [Hv4 Hin]%list_elem_of_filter.
  rewrite Forall_forall in Hread.
  destruct (readable_ipv4 ifa (Hread _ Hin) Hv4) as (sa & sb & Ha & Hb & _).
  exists (record_of ifa), (text_of (ifa_addr ifa)),
    (text_of (ifa_broadaddr ifa)).
  split; [done |]. unfold record_of.
  rewrite record_address, record_broadcast, Ha, Hb.
  cbn [text_of from_option].
  repeat split; apply dotted_has_shape.
Qed.

Lemma text_fields_have_dotted_shape_witness :
  ListInterfaces Stray (QueryOk [lo; eth0_v6; odd0])
  = Ret (mk_frame None [Some (record_of lo); Some (record_of odd0)] 2
           [Call_getifaddrs 0 (Head [lo; eth0_v6; odd0]);
            Call_freeifaddrs (Head [lo; eth0_v6; odd0])])
  ∧ Forall (λ slot, ∃ (obj : Object) address broadcast,
              slot = Some obj
              ∧ obj !! "address"%string = Some address
              ∧ obj !! "broadcast"%string = Some broadcast
              ∧ dotted_shape address ∧ dotted_shape broadcast)
      [Some (record_of lo); Some (record_of odd0)].
Proof.
  assert (H1 : ListInterfaces Stray (QueryOk [lo; eth0_v6; odd0])
    = Ret (mk_frame None [Some (record_of lo); Some (record_of odd0)] 2
             [Call_getifaddrs 0 (Head [lo; eth0_v6; odd0]);
              Call_freeifaddrs (Head [lo; eth0_v6; odd0])]))
    by (vm_compute; reflexivity).
  exact (conj H1 (text_fields_have_dotted_shape Stray _ _ H1)).
Defined.

(** ** Interface flags and the broadcast slot *)

(** The IPv4 entry [wg0] has a unicast address and a null broadcast slot:
    the call on it faults, no record is emitted for it and no [broadcast]
    text is rendered. *)
Lemma ipv4_entry_with_null_slot_has_no_record :
  is_ipv4 wg0 ∧ ifa_ifu wg0 = None
  ∧ ¬ ∃ a, listInterfaces Stray (QueryOk [wg0]) = Ret (Returns a).
Proof.
  split; [exact I |]. split; [reflexivity |].
  intros (a & Hrun).
  change (listInterfaces Stray (QueryOk [wg0])) with (@Fault js_outcome) in Hrun.
  discriminate Hrun.
Qed.

(** C10.  The flags of an interface play no part: put any flags on the
    entries of a report, and the call shows JavaScript what it shows for the
    report as it was.  Whenever the call returns, every IPv4 entry has its
    record, and the [broadcast] field of the record is the text of the four
    bytes at [sin_addr] in the socket address the slot [ifa_ifu] points at,
    whatever the family of that socket address. *)
Theorem flags_are_not_inspected (stack : ifaddrs_ptr) (flags : ifaddrs → Z)
    (l : list ifaddrs) :
  listInterfaces stack (QueryOk ((λ ifa, with_flags (flags ifa) ifa) <$> l))
  = listInterfaces stack (QueryOk l)
  ∧ ∀ a, listInterfaces stack
           (QueryOk ((λ ifa, with_flags (flags ifa) ifa) <$> l))
         = Ret (Returns a) →
         Forall2
           (λ ifa slot, ∃ (obj : Object) sb,
              slot = Some obj
              ∧ ifa_ifu ifa = Some sb
              ∧ obj !! "broadcast"%string = Some (dotted (sin_addr sb)))
           (filter is_ipv4 l) a.
Proof.
  split; [apply listInterfaces_ignores_flags |].
  intros a. rewrite listInterfaces_ignores_flags.
  intros (Hread & _ & ->)%listInterfaces_returns.
  apply Forall2_records. intros ifa Hin Hv4.
  rewrite Forall_forall in Hread.
  destruct (readable_ipv4 ifa (Hread _ Hin) Hv4) as (sa & sb & Ha & Hb & _).
  exists (record_of ifa), sb. split; [done |]. split; [done |].
  unfold record_of. rewrite Hb. cbn [text_of from_option].
  by rewrite record_broadcast.
Qed.

Lemma flags_are_not_inspected_witness :
  listInterfaces Stray
    (QueryOk ((λ ifa, with_flags 0 ifa) <$> [lo; ppp0; odd0]))
  = Ret (Returns [Some (record_of lo); Some (record_of ppp0);
                  Some (record_of odd0)])
  ∧ listInterfaces Stray
      (QueryOk ((λ ifa, with_flags 0 ifa) <$> [lo; ppp0; odd0]))
    = listInterfaces Stray (QueryOk [lo; ppp0; odd0])
  ∧ Forall2
      (λ ifa slot, ∃ (obj : Object) sb,
         slot = Some obj
         ∧ ifa_ifu ifa = Some sb
         ∧ obj !! "broadcast"%string = Some (dotted (sin_addr sb)))
      (filter is_ipv4 [lo; ppp0; odd0])
      [Some (record_of lo); Some (record_of ppp0); Some (record_of odd0)].
Proof.
  assert (H1 : listInterfaces Stray
                 (QueryOk ((λ ifa, with_flags 0 ifa) <$> [lo; ppp0; odd0]))
               = Ret (Returns [Some (record_of lo); Some (record_of ppp0);
                               Some (record_of odd0)]))
    by (vm_compute; reflexivity).
  destruct (flags_are_not_inspected Stray (λ _, 0) [lo; ppp0; odd0])
    as [H2 H3].
  exact (conj H1 (conj H2 (H3 _ H1))).
Defined.
